(** * ExitoPointsExchange: the points-exchange selection controller

    A shallow embedding of [Proyecto_JS/pickproduct/smain.ts]: the class
    [ExitoPointsExchange], its fields, and its methods as computations in a
    small state-and-exception monad over the controller fields and the part
    of the DOM the controller reads and writes. *)

From Stdlib Require Import ZArith Lia Ascii String.
From stdpp Require Import base option list gmap strings pretty.

Local Open Scope string_scope.
Local Open Scope list_scope.
Local Open Scope Z_scope.

(** ** JavaScript numbers

    Every number the controller handles is the result of [Number.parseInt],
    the literal 7000, or a sum or difference of those: an integer or NaN.
    Integers are kept exact (as [Z]). The source computes with doubles: beyond
    2^53 its sums and differences are rounded, [parseInt] may give an
    infinity, and numbers from 1e21 on print in exponent form. The model
    agrees with the source as long as the integers involved stay below 2^53
    in absolute value; statements about sums are made for pages without
    negative costs, where every accepted total lies between 0 and 7000. *)
Module JS.

Inductive num : Type :=
  | NaN
  | Num (z : Z).

#[global] Instance num_eq_dec : EqDecision num.
Proof. solve_decision. Defined.

Definition add (a b : num) : num :=
  match a, b with
  | Num x, Num y => Num (x + y)
  | _, _ => NaN
  end.

Definition sub (a b : num) : num :=
  match a, b with
  | Num x, Num y => Num (x - y)
  | _, _ => NaN
  end.

(** [a <= b]: false as soon as one side is NaN. *)
Definition le (a b : num) : bool :=
  match a, b with
  | Num x, Num y => bool_decide (x ≤ y)
  | _, _ => false
  end.

(** [a < b]. *)
Definition lt (a b : num) : bool :=
  match a, b with
  | Num x, Num y => bool_decide (x < y)
  | _, _ => false
  end.

(** Template-literal interpolation of a number. *)
Definition to_string (a : num) : string :=
  match a with
  | NaN => "NaN"
  | Num z => pretty z
  end.

(** *** [Number.parseInt(string)] with the radix left out

    Leading white space (the ASCII one), a sign, a [0x] prefix, then the
    longest run of digits of the radix; NaN when there is no digit. *)

Definition is_white_space (c : ascii) : bool :=
  let n := nat_of_ascii c in
  bool_decide (n = 32 ∨ n = 9 ∨ n = 10 ∨ n = 11 ∨ n = 12 ∨ n = 13)%nat.

(** The value of [c] as a digit (decimal digits and letters), if it is one. *)
Definition digit_value (c : ascii) : option Z :=
  let n := Z.of_nat (nat_of_ascii c) in
  if bool_decide (48 ≤ n ≤ 57) then Some (n - 48)
  else if bool_decide (97 ≤ n ≤ 122) then Some (n - 97 + 10)
  else if bool_decide (65 ≤ n ≤ 90) then Some (n - 65 + 10)
  else None.

Fixpoint skip_white_space (s : string) : string :=
  match s with
  | String c s' => if is_white_space c then skip_white_space s' else s
  | EmptyString => s
  end.

(** Reads the longest prefix of digits below [radix]; [acc] is [None] until a
    first digit has been read. *)
Fixpoint read_digits (radix : Z) (acc : option Z) (s : string) : option Z :=
  match s with
  | String c s' =>
      match digit_value c with
      | Some d =>
          if bool_decide (d < radix)
          then read_digits radix (Some (default 0 acc * radix + d)) s'
          else acc
      | None => acc
      end
  | EmptyString => acc
  end.

Definition strip_sign (s : string) : Z * string :=
  match s with
  | String "-"%char s' => (-1, s')
  | String "+"%char s' => (1, s')
  | _ => (1, s)
  end.

Definition strip_hex_prefix (s : string) : Z * string :=
  match s with
  | String "0"%char (String "x"%char s') => (16, s')
  | String "0"%char (String "X"%char s') => (16, s')
  | _ => (10, s)
  end.

Definition parseInt (input : string) : num :=
  let '(sign, s1) := strip_sign (skip_white_space input) in
  let '(radix, s2) := strip_hex_prefix s1 in
  match read_digits radix None s2 with
  | Some v => Num (sign * v)
  | None => NaN
  end.

(** A [DOMStringMap] entry that may be missing: reading it gives [undefined],
    which [parseInt] first converts to the string "undefined". *)
Definition ToString (v : option string) : string :=
  match v with
  | Some s => s
  | None => "undefined"
  end.

End JS.

Import JS.

(** ** Data model *)

(** A key of the [products] map or of the [selectedProducts] set. The type is
    [string] in the source, but [element.dataset.id!] is [undefined] at run
    time when the attribute is missing: [None] stands for [undefined]. *)
Abbreviation key := (option string).

(** [interface Product] *)
Record Product : Type := mkProduct {
  id : key;
  points : num;
  selected : bool;
}.

#[global] Instance Product_eq_dec : EqDecision Product.
Proof. solve_decision. Defined.

Definition set_selected (b : bool) (p : Product) : Product :=
  {| id := id p; points := points p; selected := b |}.

(** *** The part of the document the controller uses *)

(** An element matching [.product-card]: its [data-id] and [data-points]
    attributes and whether its class list holds [selected]. *)
Record Card : Type := mkCard {
  data_id : option string;
  data_points : option string;
  class_selected : bool;
}.

(** The element with id [confirmButton]. *)
Record Button : Type := mkButton {
  disabled : bool;
  innerHTML : string;
}.

(** The first element matching [.points-value]. *)
Record PointsValue : Type := mkPointsValue {
  textContent : string;
  class_low_points : bool;
}.

Record Document : Type := mkDocument {
  cards : list Card;
  button : option Button;
  pointsValue : option PointsValue;
}.

(** The value of the field [confirmButton]: not yet assigned, [null] (what
    [getElementById] gives when there is no such element), or a reference to
    the button of the document. *)
Inductive ButtonRef : Type :=
  | Undefined
  | Null
  | TheButton.

(** The fields of [ExitoPointsExchange], the document, whether the click
    listener of the confirmation button has been attached, and the number of
    scheduled exchange completions (the 1500 ms timers not fired yet). *)
Record State : Type := mkState {
  availablePoints : num;
  selectedProducts : list key;
  products : gmap key Product;
  confirmButton : ButtonRef;
  document : Document;
  confirmListener : bool;
  pendingExchanges : nat;
}.

(** *** Field updates *)

Definition with_availablePoints (v : num) (s : State) : State :=
  mkState v (selectedProducts s) (products s) (confirmButton s) (document s)
    (confirmListener s) (pendingExchanges s).

Definition with_selectedProducts (v : list key) (s : State) : State :=
  mkState (availablePoints s) v (products s) (confirmButton s) (document s)
    (confirmListener s) (pendingExchanges s).

Definition with_products (v : gmap key Product) (s : State) : State :=
  mkState (availablePoints s) (selectedProducts s) v (confirmButton s)
    (document s) (confirmListener s) (pendingExchanges s).

Definition with_confirmButton (v : ButtonRef) (s : State) : State :=
  mkState (availablePoints s) (selectedProducts s) (products s) v (document s)
    (confirmListener s) (pendingExchanges s).

Definition with_document (v : Document) (s : State) : State :=
  mkState (availablePoints s) (selectedProducts s) (products s)
    (confirmButton s) v (confirmListener s) (pendingExchanges s).

Definition with_confirmListener (v : bool) (s : State) : State :=
  mkState (availablePoints s) (selectedProducts s) (products s)
    (confirmButton s) (document s) v (pendingExchanges s).

Definition with_pendingExchanges (v : nat) (s : State) : State :=
  mkState (availablePoints s) (selectedProducts s) (products s)
    (confirmButton s) (document s) (confirmListener s) v.

Definition with_cards (v : list Card) (d : Document) : Document :=
  mkDocument v (button d) (pointsValue d).

Definition with_button (v : option Button) (d : Document) : Document :=
  mkDocument (cards d) v (pointsValue d).

Definition with_pointsValue (v : option PointsValue) (d : Document) : Document :=
  mkDocument (cards d) (button d) v.

(** *** [Set<string>]: insertion-ordered, without duplicates *)

Definition set_add (k : key) (l : list key) : list key :=
  if decide (k ∈ l) then l else l ++ [k].

Definition set_delete (k : key) (l : list key) : list key :=
  filter (λ x, x ≠ k) l.

(** ** The monad: state, and a [TypeError] that keeps the state reached

    A computation returns a value or throws; either way it leaves a state and
    the list of the states it went through, one per write. *)
Inductive Result (A : Type) : Type :=
  | Ok (a : A) (s : State) (tr : list State)
  | Throw (s : State) (tr : list State).
Arguments Ok {A} a s tr.
Arguments Throw {A} s tr.

Definition M (A : Type) : Type := State → Result A.

Definition ret {A} (a : A) : M A := λ s, Ok a s [].

Definition bind {A B} (m : M A) (f : A → M B) : M B := λ s,
  match m s with
  | Ok a s1 t1 =>
      match f a s1 with
      | Ok b s2 t2 => Ok b s2 (t1 ++ t2)
      | Throw s2 t2 => Throw s2 (t1 ++ t2)
      end
  | Throw s1 t1 => Throw s1 t1
  end.

Definition get : M State := λ s, Ok s s [].

Definition write (f : State → State) : M unit := λ s, Ok () (f s) [f s].

Definition throwTypeError {A} : M A := λ s, Throw s [].

Notation "'let*' x ':=' m 'in' k" := (bind m (λ x, k))
  (at level 10, x name, m at level 100, k at level 200, only parsing).
Notation "m >> k" := (bind m (λ _, k))
  (at level 90, right associativity, only parsing).

(** The state a computation leaves, whether it returned or threw. *)
Definition exec {A} (m : M A) (s : State) : State :=
  match m s with
  | Ok _ s' _ => s'
  | Throw s' _ => s'
  end.

(** The states a computation goes through. *)
Definition states {A} (m : M A) (s : State) : list State :=
  match m s with
  | Ok _ _ tr => tr
  | Throw _ tr => tr
  end.

Definition throws {A} (m : M A) (s : State) : bool :=
  match m s with
  | Ok _ _ _ => false
  | Throw _ _ => true
  end.

Fixpoint forEach {A} (f : A → M unit) (l : list A) : M unit :=
  match l with
  | [] => ret ()
  | x :: l' => f x >> forEach f l'
  end.

(** ** The methods of [ExitoPointsExchange] *)

(** *** Access to the elements *)

(** A write to a property of [this.confirmButton]: a [TypeError] when the
    field is [undefined] or [null]. (A reference always points to the button
    of the document; the last case does not arise.) *)
Definition setButton (f : Button → Button) : M unit := λ s,
  match confirmButton s, button (document s) with
  | TheButton, Some b =>
      write (with_document (with_button (Some (f b)) (document s))) s
  | _, _ => throwTypeError s
  end.

(** A read of a property of [this.confirmButton]. *)
Definition getButton : M Button := λ s,
  match confirmButton s, button (document s) with
  | TheButton, Some b => ret b s
  | _, _ => throwTypeError s
  end.

Definition set_disabled (v : bool) (b : Button) : Button :=
  mkButton v (innerHTML b).

Definition set_innerHTML (v : string) (b : Button) : Button :=
  mkButton (disabled b) v.

Definition set_class_selected (v : bool) (c : Card) : Card :=
  mkCard (data_id c) (data_points c) v.

(** [element.classList.add('selected')] and [remove], on the card at
    position [element] of the document. *)
Definition classList_selected (element : nat) (v : bool) : M unit :=
  write (λ s, with_document
    (with_cards (alter (set_class_selected v) element (cards (document s)))
       (document s)) s).

(** *** [initProducts] *)
Definition initProducts : M unit :=
  let* s := get in
  let productCards := cards (document s) in
  forEach (λ element,
    let id := data_id element in
    let points := parseInt (ToString (data_points element)) in
    write (λ s, with_products
      (<[id := mkProduct id points false]> (products s)) s))
    productCards.

(** *** [initEventListeners]

    The listeners of the cards are the operation [cardClick] below. The
    listener of the confirmation button is attached through [?.], that is
    only if the field [confirmButton] holds an element at this point. *)
Definition initEventListeners : M unit :=
  let* s := get in
  match confirmButton s with
  | TheButton => write (with_confirmListener true)
  | _ => ret ()
  end.

(** *** [calculateTotalPoints] *)
Definition calculateTotalPoints (s : State) : num :=
  fold_left (λ total productId,
    match products s !! productId with
    | Some product => add total (points product)
    | None => total
    end) (selectedProducts s) (Num 0).

(** *** [updateConfirmButton] *)
Definition selectionLabel (selectedCount : nat) (totalPoints : num) : string :=
  "
        <span>Confirmar Selección (" +:+ pretty selectedCount +:+ " producto"
  +:+ (if bool_decide (1 < selectedCount)%nat then "s" else "") +:+ " - "
  +:+ to_string totalPoints +:+ " puntos)</span>
      ".

Definition updateConfirmButton : M unit :=
  let* s := get in
  let hasSelection := bool_decide (0 < length (selectedProducts s))%nat in
  setButton (set_disabled (negb hasSelection)) >>
  if hasSelection then
    let totalPoints := calculateTotalPoints s in
    let selectedCount := length (selectedProducts s) in
    setButton (set_innerHTML (selectionLabel selectedCount totalPoints))
  else
    setButton (set_innerHTML "<span>Confirmar Selección</span>").

(** *** [updatePointsDisplay] *)
Definition remainingPoints (s : State) : num :=
  sub (availablePoints s) (calculateTotalPoints s).

Definition updatePointsDisplay : M unit :=
  let* s := get in
  let remaining := remainingPoints s in
  match pointsValue (document s) with
  | Some pv =>
      write (with_document (with_pointsValue
        (Some (mkPointsValue (to_string remaining +:+ " Puntos")
                 (class_low_points pv))) (document s))) >>
      write (λ s', with_document (with_pointsValue
        (Some (mkPointsValue (to_string remaining +:+ " Puntos")
                 (lt remaining (Num 1000)))) (document s')) s')
  | None => ret ()
  end.

(** *** [toggleProductSelection]

    [addSelectionAnimation] and [showInsufficientPointsFeedback] only write
    styles and a transient message element: they are left out. *)
Definition toggleProductSelection (productId : key) (element : nat) : M unit :=
  let* s := get in
  match products s !! productId with
  | None => ret ()
  | Some product =>
      (if selected product then
         write (λ s, with_selectedProducts
                       (set_delete productId (selectedProducts s)) s) >>
         write (λ s, with_products
                       (<[productId := set_selected false product]> (products s)) s) >>
         classList_selected element false
       else
         let totalSelectedPoints := calculateTotalPoints s in
         if le (add totalSelectedPoints (points product)) (availablePoints s)
         then
           write (λ s, with_selectedProducts
                         (set_add productId (selectedProducts s)) s) >>
           write (λ s, with_products
                         (<[productId := set_selected true product]> (products s)) s) >>
           classList_selected element true
         else
           ret ()) >>
      updateConfirmButton >>
      updatePointsDisplay
  end.

(** *** [processExchange] and the callback it schedules *)
Definition processExchange : M unit :=
  setButton (set_innerHTML "<span>Procesando...</span>") >>
  setButton (set_disabled true) >>
  write (λ s, with_pendingExchanges (S (pendingExchanges s)) s).

(** The body of the [setTimeout] callback. The two [forEach] loops that clear
    the flags of the products and the markers of the cards are one write
    each. *)
Definition exchangeCompletion : M unit :=
  write (with_selectedProducts []) >>
  write (λ s, with_products (set_selected false <$> products s) s) >>
  write (λ s, with_availablePoints
                (sub (availablePoints s) (calculateTotalPoints s)) s) >>
  write (λ s, with_document
    (with_cards (set_class_selected false <$> cards (document s))
       (document s)) s) >>
  updateConfirmButton >>
  updatePointsDisplay.

(** A scheduled completion fires, if there is one. *)
Definition timerFires : M unit :=
  let* s := get in
  match pendingExchanges s with
  | O => ret ()
  | S n => write (with_pendingExchanges n) >> exchangeCompletion
  end.

(** *** [handleConfirmSelection]

    [answer] is what the [confirm] dialog returns. The message shown in it is
    not modelled, and neither is the [querySelector] that looks up the name
    of each selected product: with an identifier that breaks the selector
    (a double quote in it) the source throws a [SyntaxError] there and
    leaves the state as it is, which is the state this definition gives for
    the answer [false]. Nothing is stated about this method not throwing. *)
Definition handleConfirmSelection (answer : bool) : M unit :=
  if answer then processExchange else ret ().

(** The body of the click listener of the confirmation button. *)
Definition confirmClick (answer : bool) : M unit :=
  let* b := getButton in
  if negb (disabled b) then handleConfirmSelection answer else ret ().

(** The click listener of the card at position [i]. *)
Definition cardClick (i : nat) : M unit :=
  let* s := get in
  match cards (document s) !! i with
  | Some element => toggleProductSelection (data_id element) i
  | None => ret ()
  end.

(** *** [init] and the constructor *)
Definition getElementById_confirmButton (d : Document) : ButtonRef :=
  match button d with
  | Some _ => TheButton
  | None => Null
  end.

Definition init : M unit :=
  initProducts >>
  initEventListeners >>
  write (λ s, with_confirmButton (getElementById_confirmButton (document s)) s) >>
  updateConfirmButton.

(** The field initialisers. *)
Definition fresh (d : Document) : State :=
  {| availablePoints := Num 7000;
     selectedProducts := [];
     products := ∅;
     confirmButton := Undefined;
     document := d;
     confirmListener := false;
     pendingExchanges := 0 |}.

(** [new ExitoPointsExchange()] on the document [d]: the state the
    constructor leaves, also when [init] throws. *)
Definition initial (d : Document) : State := exec init (fresh d).

(** ** Operations on a constructed controller

    The bodies of the handlers and of the timer callback, and
    [processExchange] called directly. *)
Inductive Op : Type :=
  | OpToggle (productId : key) (element : nat)
  | OpConfirmClick (answer : bool)
  | OpProcessExchange
  | OpTimer.

Definition perform (op : Op) : M unit :=
  match op with
  | OpToggle productId element => toggleProductSelection productId element
  | OpConfirmClick answer => confirmClick answer
  | OpProcessExchange => processExchange
  | OpTimer => timerFires
  end.

Definition step (s : State) (op : Op) : State := exec (perform op) s.

Definition run (ops : list Op) (s : State) : State := fold_left step ops s.

(** ** Derived predicates *)

(** The fields of the controller are the same in [s] and [s']: only the
    document and the scheduled completions may differ. *)
Definition same_core (s s' : State) : Prop :=
  availablePoints s' = availablePoints s ∧
  selectedProducts s' = selectedProducts s ∧
  products s' = products s ∧
  confirmButton s' = confirmButton s ∧
  confirmListener s' = confirmListener s.

(** [sum(cost of selected) <= availablePoints], as the source would test it. *)
Definition within_budget (s : State) : bool :=
  le (calculateTotalPoints s) (availablePoints s).

(** The cost of [p] is a non-negative integer. *)
Definition nonneg_cost (p : Product) : Prop :=
  match points p with
  | Num z => 0 ≤ z
  | NaN => False
  end.

#[global] Instance nonneg_cost_dec p : Decision (nonneg_cost p).
Proof. unfold nonneg_cost. destruct (points p); apply _. Defined.

(** Every cost of the catalog is a non-negative integer. *)
Definition nonneg_costs (m : gmap key Product) : Prop :=
  map_Forall (λ _, nonneg_cost) m.

#[global] Instance nonneg_costs_dec m : Decision (nonneg_costs m).
Proof. unfold nonneg_costs. apply _. Defined.

(** The set and the flags agree, and each product sits under its own
    identifier. *)
Record consistent (s : State) : Prop := {
  consistent_NoDup : NoDup (selectedProducts s);
  consistent_flags :
    ∀ k, k ∈ selectedProducts s ↔
         ∃ p, products s !! k = Some p ∧ selected p = true;
  consistent_ids : ∀ k p, products s !! k = Some p → id p = k;
}.

(** The cost of the product under [k], as an integer (0 when there is none). *)
Definition zcost (m : gmap key Product) (k : key) : Z :=
  match m !! k with
  | Some p => match points p with Num z => z | NaN => 0 end
  | None => 0
  end.

Fixpoint zsum (f : key → Z) (l : list key) : Z :=
  match l with
  | [] => 0
  | k :: l' => f k + zsum f l'
  end.

(** All states an execution of [ops] goes through, the one after each
    operation included. *)
Fixpoint history (ops : list Op) (s : State) : list State :=
  match ops with
  | [] => []
  | op :: ops' =>
      states (perform op) s ++ step s op :: history ops' (step s op)
  end.

(** The catalog that [initProducts] builds from the cards, on top of [m]. *)
Definition product_of_card (c : Card) : Product :=
  mkProduct (data_id c) (parseInt (ToString (data_points c))) false.

Definition catalog_of (cs : list Card) (m : gmap key Product) : gmap key Product :=
  fold_left (λ m c, <[data_id c := product_of_card c]> m) cs m.

(** The last card that carries the identifier [k]. *)
Definition last_card (k : key) (cs : list Card) : option Card :=
  last (filter (λ c, data_id c = k) cs).

(** ** Sample documents *)

(** Two cards, A for 3000 points and B for 5000, the confirmation button and
    the display of the remaining points. *)
Definition docAB : Document :=
  {| cards := [mkCard (Some "A") (Some "3000") false;
               mkCard (Some "B") (Some "5000") false];
     button := Some (mkButton false "<span>Confirmar Selección</span>");
     pointsValue := Some (mkPointsValue "7000 Puntos" false) |}.

(** The same cards without the confirmation button. *)
Definition docNoButton : Document := with_button None docAB.

(** A card without attributes next to a card with both. *)
Definition docMalformed : Document :=
  {| cards := [mkCard None None false;
               mkCard (Some "A") (Some "3000") false];
     button := Some (mkButton false "<span>Confirmar Selección</span>");
     pointsValue := Some (mkPointsValue "7000 Puntos" false) |}.

(** Costs 7000, -1000 and 1000: a catalog with a negative cost. *)
Definition docNegative : Document :=
  {| cards := [mkCard (Some "A") (Some "7000") false;
               mkCard (Some "B") (Some "-1000") false;
               mkCard (Some "C") (Some "1000") false];
     button := Some (mkButton false "<span>Confirmar Selección</span>");
     pointsValue := Some (mkPointsValue "7000 Puntos" false) |}.

(** Two cards that carry the same identifier. *)
Definition docDuplicate : Document :=
  {| cards := [mkCard (Some "A") (Some "3000") false;
               mkCard (Some "A") (Some "3000") false];
     button := Some (mkButton false "<span>Confirmar Selección</span>");
     pointsValue := Some (mkPointsValue "7000 Puntos" false) |}.

(** ** Initialisation as the specification words it

    Follows the specification, not the source: an item missing its identifier
    or its cost is skipped. Used only to compare [initProducts] with it. *)
Definition catalog_skipping (cs : list Card) : gmap key Product :=
  fold_left (λ m c,
    match data_id c, data_points c with
    | Some i, Some pts => <[Some i := mkProduct (Some i) (parseInt pts) false]> m
    | _, _ => m
    end) cs ∅.

(** ** Derived notions used in the statements *)

(** The set and the catalog that a toggle of [k] leaves. *)
Definition toggle_selection (k : key) (s : State) : list key :=
  match products s !! k with
  | None => selectedProducts s
  | Some p =>
      if selected p then set_delete k (selectedProducts s)
      else if le (add (calculateTotalPoints s) (points p)) (availablePoints s)
           then set_add k (selectedProducts s)
           else selectedProducts s
  end.

Definition toggle_products (k : key) (s : State) : gmap key Product :=
  match products s !! k with
  | None => products s
  | Some p =>
      if selected p then <[k := set_selected false p]> (products s)
      else if le (add (calculateTotalPoints s) (points p)) (availablePoints s)
           then <[k := set_selected true p]> (products s)
           else products s
  end.

(** A state on the way of a toggle of [k]: the set is already the new one, the
    catalog is the old or the new one. *)
Definition toggle_midway (k : key) (s s' : State) : Prop :=
  availablePoints s' = availablePoints s ∧
  selectedProducts s' = toggle_selection k s ∧
  (products s' = products s ∨ products s' = toggle_products k s).

(** The costs are non-negative integers, the budget is a non-negative integer
    and the selection [l] fits in it. *)
Definition budget_of (a : num) (l : list key) (m : gmap key Product) : Prop :=
  nonneg_costs m ∧ ∃ z, a = Num z ∧ 0 ≤ z ∧ zsum (zcost m) l ≤ z.

Definition budgeted (s : State) : Prop :=
  budget_of (availablePoints s) (selectedProducts s) (products s).

(** [m] leaves the fields of the controller alone, at every write. *)
Definition dom_only {A} (m : M A) : Prop :=
  ∀ s, same_core s (exec m s) ∧ Forall (same_core s) (states m s).

(** The fields that a toggle may change are those of [s]. *)
Definition unchanged (s s' : State) : Prop :=
  selectedProducts s' = selectedProducts s ∧
  products s' = products s ∧
  availablePoints s' = availablePoints s.

(** A sequence of toggles, each with its product identifier and its card. *)
Definition toggles (ts : list (key * nat)) : list Op :=
  map (λ t, OpToggle t.1 t.2) ts.

(** What the page shows: the text of the remaining points, and whether the
    confirmation button is disabled. *)
Definition displayed (s : State) : option string :=
  textContent <$> pointsValue (document s).

Definition confirm_disabled (s : State) : option bool :=
  disabled <$> button (document s).

Definition flag (k : key) (s : State) : option bool :=
  selected <$> products s !! k.

(** ** The page after a refresh *)

(** The field [confirmButton] refers to the button of the document. *)
Definition has_button (s : State) : Prop :=
  confirmButton s = TheButton ∧ is_Some (button (document s)).

(** The button as [updateConfirmButton] leaves it in [s]. *)
Definition refreshedButton (s : State) : Button :=
  if bool_decide (0 < length (selectedProducts s))%nat
  then mkButton false
         (selectionLabel (length (selectedProducts s)) (calculateTotalPoints s))
  else mkButton true "<span>Confirmar Selección</span>".

(** The display of the remaining points as [updatePointsDisplay] leaves it. *)
Definition refreshedPointsValue (s : State) : PointsValue :=
  mkPointsValue (to_string (remainingPoints s) +:+ " Puntos")
    (lt (remainingPoints s) (Num 1000)).

Definition refreshButton (s : State) : State :=
  with_document (with_button (Some (refreshedButton s)) (document s)) s.

Definition refreshDisplay (s : State) : State :=
  match pointsValue (document s) with
  | Some _ =>
      with_document
        (with_pointsValue (Some (refreshedPointsValue s)) (document s)) s
  | None => s
  end.

Definition refresh (s : State) : State := refreshDisplay (refreshButton s).

(** The state after the writes of [toggleProductSelection] that come before
    the two refreshes. *)
Definition mark_card (element : nat) (v : bool) (s : State) : State :=
  with_document
    (with_cards (alter (set_class_selected v) element (cards (document s)))
       (document s)) s.

Definition toggle_writes (k : key) (element : nat) (s : State) : State :=
  match products s !! k with
  | None => s
  | Some p =>
      if selected p then
        mark_card element false
          (with_products (<[k := set_selected false p]> (products s))
             (with_selectedProducts (set_delete k (selectedProducts s)) s))
      else if le (add (calculateTotalPoints s) (points p)) (availablePoints s)
      then
        mark_card element true
          (with_products (<[k := set_selected true p]> (products s))
             (with_selectedProducts (set_add k (selectedProducts s)) s))
      else s
  end.

(** The state after the writes of the completion that come before the two
    refreshes. *)
Definition completion_writes (s : State) : State :=
  with_document
    (with_cards (set_class_selected false <$> cards (document s)) (document s))
    (with_availablePoints (sub (availablePoints s) (Num 0))
       (with_products (set_selected false <$> products s)
          (with_selectedProducts [] s))).

(** The state after [processExchange]. *)
Definition processing (s : State) : State :=
  with_pendingExchanges (S (pendingExchanges s))
    (with_document
       (with_button
          (Some (mkButton true "<span>Procesando...</span>")) (document s)) s).

(** The state the constructor leaves on a document with the button. *)
Definition constructed (d : Document) : State :=
  refreshButton
    (with_confirmButton TheButton
       (with_products (catalog_of (cards d) ∅) (fresh d))).

(** [m] does not change what [f] reads of the state. *)
Definition keeps {A B} (f : State → B) (m : M A) : Prop :=
  ∀ s, f (exec m s) = f s.

(** ** The events of the page

    A click on a card, a click on the confirmation button (with the answer to
    the dialog) and a timer that fires. The click on the button runs the body
    of its listener although the constructor does not attach it: the states
    reached here include those of the page. *)
Inductive Event : Type :=
  | EvCard (i : nat)
  | EvConfirm (answer : bool)
  | EvTimer.

Definition handle (e : Event) : M unit :=
  match e with
  | EvCard i => cardClick i
  | EvConfirm answer => confirmClick answer
  | EvTimer => timerFires
  end.

Definition play (evs : list Event) (s : State) : State :=
  fold_left (λ s e, exec (handle e) s) evs s.

(** Every selected identifier with a product has an integer cost. *)
Definition selected_costs_are_numbers (s : State) : Prop :=
  ∀ k p, k ∈ selectedProducts s → products s !! k = Some p →
         ∃ z, points p = Num z.

(** The marker of every card agrees with the flag of its product. *)
Definition markers_match (s : State) : Prop :=
  ∀ i c, cards (document s) !! i = Some c →
         (class_selected c = true ↔ flag (data_id c) s = Some true).

(** The identifiers of the cards, in document order. *)
Definition card_ids (s : State) : list key := data_id <$> cards (document s).

(** The cost of [p] is not a negative integer (it may be NaN). *)
Definition no_negative_cost (p : Product) : Prop :=
  match points p with
  | Num z => 0 ≤ z
  | NaN => True
  end.

#[global] Instance no_negative_cost_dec p : Decision (no_negative_cost p).
Proof. unfold no_negative_cost. destruct (points p); apply _. Defined.

(** No cost of the catalog is a negative integer. *)
Definition no_negative_costs (m : gmap key Product) : Prop :=
  map_Forall (λ _, no_negative_cost) m.

#[global] Instance no_negative_costs_dec m : Decision (no_negative_costs m).
Proof. unfold no_negative_costs. apply _. Defined.

(** The budget is a non-negative integer and the integer costs of the
    selection add up to at most the budget. *)
Definition fits (s : State) : Prop :=
  ∃ a, availablePoints s = Num a ∧ 0 ≤ a ∧
       zsum (zcost (products s)) (selectedProducts s) ≤ a.

(** * Properties *)

(** ** The monad *)

Lemma exec_bind {A B} (m : M A) (f : A → M B) s :
  exec (bind m f) s =
  match m s with
  | Ok a s1 _ => exec (f a) s1
  | Throw s1 _ => s1
  end.
Proof.
  unfold exec, bind. destruct (m s) as [a s1 t1|s1 t1]; [|done].
  by destruct (f a s1).
Qed.

Lemma states_bind {A B} (m : M A) (f : A → M B) s :
  states (bind m f) s =
  match m s with
  | Ok a s1 t1 => t1 ++ states (f a) s1
  | Throw _ t1 => t1
  end.
Proof.
  unfold states, bind. destruct (m s) as [a s1 t1|s1 t1]; [|done].
  by destruct (f a s1).
Qed.

Lemma throws_bind {A B} (m : M A) (f : A → M B) s :
  throws (bind m f) s =
  match m s with
  | Ok a s1 _ => throws (f a) s1
  | Throw _ _ => true
  end.
Proof.
  unfold throws, bind. destruct (m s) as [a s1 t1|s1 t1]; [|done].
  by destruct (f a s1).
Qed.

(** ** Computations that only touch the document *)

#[local] Instance same_core_refl : Reflexive same_core.
Proof. by intros s. Qed.

Lemma same_core_trans s1 s2 s3 :
  same_core s1 s2 → same_core s2 s3 → same_core s1 s3.
Proof.
  intros (?&?&?&?&?) (?&?&?&?&?). unfold same_core. split_and!; congruence.
Qed.

Lemma dom_only_ret {A} (a : A) : dom_only (ret a).
Proof. intros s. split; [done|constructor]. Qed.

Lemma dom_only_get : dom_only get.
Proof. intros s. split; [done|constructor]. Qed.

Lemma dom_only_write f :
  (∀ s, same_core s (f s)) → dom_only (write f).
Proof. intros Hf s. split; [apply Hf|]. repeat constructor; apply Hf. Qed.

Lemma dom_only_bind {A B} (m : M A) (f : A → M B) :
  dom_only m → (∀ a, dom_only (f a)) → dom_only (bind m f).
Proof.
  intros Hm Hf s. rewrite exec_bind, states_bind.
  destruct (Hm s) as [He Hs]. unfold exec, states in He, Hs.
  destruct (m s) as [a s1 t1|s1 t1]; [|done].
  destruct (Hf a s1) as [He' Hs']. split.
  - by eapply same_core_trans.
  - apply Forall_app. split; [done|].
    eapply Forall_impl; [done|]. intros s'. by apply same_core_trans.
Qed.

Lemma dom_only_setButton f : dom_only (setButton f).
Proof.
  intros s. unfold setButton, exec, states.
  destruct (confirmButton s), (button (document s)); cbn;
    split; by repeat constructor.
Qed.

Lemma dom_only_getButton : dom_only getButton.
Proof.
  intros s. unfold getButton, exec, states.
  destruct (confirmButton s), (button (document s)); cbn;
    split; by repeat constructor.
Qed.

Lemma dom_only_updateConfirmButton : dom_only updateConfirmButton.
Proof.
  apply dom_only_bind; [apply dom_only_get|]. intros s.
  apply dom_only_bind; [apply dom_only_setButton|]. intros _.
  case_bool_decide; apply dom_only_setButton.
Qed.

Lemma dom_only_updatePointsDisplay : dom_only updatePointsDisplay.
Proof.
  apply dom_only_bind; [apply dom_only_get|]. intros s.
  destruct (pointsValue (document s)); [|apply dom_only_ret].
  apply dom_only_bind; [by apply dom_only_write|]. intros _.
  by apply dom_only_write.
Qed.

Lemma dom_only_processExchange : dom_only processExchange.
Proof.
  apply dom_only_bind; [apply dom_only_setButton|]. intros _.
  apply dom_only_bind; [apply dom_only_setButton|]. intros _.
  by apply dom_only_write.
Qed.

Lemma dom_only_confirmClick answer : dom_only (confirmClick answer).
Proof.
  apply dom_only_bind; [apply dom_only_getButton|]. intros b.
  destruct (negb (disabled b)); [|apply dom_only_ret].
  destruct answer; [apply dom_only_processExchange|apply dom_only_ret].
Qed.

Lemma dom_only_refresh : dom_only (updateConfirmButton >> updatePointsDisplay).
Proof.
  apply dom_only_bind; [apply dom_only_updateConfirmButton|]. intros _.
  apply dom_only_updatePointsDisplay.
Qed.

(** ** [toggleProductSelection] *)

Lemma toggle_spec k el s :
  let s' := exec (toggleProductSelection k el) s in
  (availablePoints s' = availablePoints s ∧
   selectedProducts s' = toggle_selection k s ∧
   products s' = toggle_products k s) ∧
  Forall (toggle_midway k s) (states (toggleProductSelection k el) s).
Proof.
  unfold toggleProductSelection, toggle_midway, toggle_selection,
    toggle_products.
  rewrite exec_bind, states_bind. cbn [get app].
  destruct (products s !! k) as [p|] eqn:Hk; [|by split; [|constructor]].
  rewrite exec_bind, states_bind.
  destruct (selected p) eqn:Hsel;
    [|destruct (le (add (calculateTotalPoints s) (points p))
                 (availablePoints s)) eqn:Hle]; cbn;
    match goal with
    | |- context [exec _ ?s3] =>
        destruct (dom_only_refresh s3) as [(Ha & Hs & Hp & _) Htr];
        rewrite Ha, Hs, Hp; cbn; split; [done|];
        repeat (apply Forall_cons; split; [cbn; by auto|]);
        eapply Forall_impl; [exact Htr|];
        intros s' (Ha' & Hs' & Hp' & _); rewrite Ha', Hs', Hp'; cbn; by auto
    end.
Qed.

(** ** The set operations and the sum of the costs *)

Lemma elem_of_set_add k k' l : k' ∈ set_add k l ↔ k' ∈ l ∨ k' = k.
Proof.
  unfold set_add. destruct (decide (k ∈ l)) as [Hk|Hk].
  - split; [by left|]. by intros [?| ->].
  - rewrite elem_of_app, list_elem_of_singleton. done.
Qed.

Lemma elem_of_set_delete k k' l : k' ∈ set_delete k l ↔ k' ∈ l ∧ k' ≠ k.
Proof. unfold set_delete. rewrite list_elem_of_filter. tauto. Qed.

Lemma NoDup_set_add k l : NoDup l → NoDup (set_add k l).
Proof.
  intros Hl. unfold set_add. case_decide; [done|].
  apply NoDup_app. split_and!; [done| |apply NoDup_singleton].
  intros x Hx ->%list_elem_of_singleton. done.
Qed.

Lemma NoDup_set_delete k l : NoDup l → NoDup (set_delete k l).
Proof. apply NoDup_filter. Qed.

Lemma zsum_app f l1 l2 : zsum f (l1 ++ l2) = zsum f l1 + zsum f l2.
Proof. induction l1 as [|x l1 IH]; cbn; [done|]. rewrite IH. lia. Qed.

Lemma zsum_set_add f k l : k ∉ l → zsum f (set_add k l) = zsum f l + f k.
Proof.
  intros Hk. unfold set_add. rewrite decide_False by done.
  rewrite zsum_app. cbn. lia.
Qed.

Lemma set_delete_notin k l : k ∉ l → set_delete k l = l.
Proof.
  induction l as [|x l IH]; [done|]. intros Hk.
  apply not_elem_of_cons in Hk as [Hne Hk]. unfold set_delete in *.
  rewrite filter_cons_True by done. by rewrite IH.
Qed.

Lemma zsum_set_delete f k l :
  NoDup l → k ∈ l → zsum f (set_delete k l) = zsum f l - f k.
Proof.
  induction 1 as [|x l Hx Hl IH]; [by intros ?%elem_of_nil|].
  intros [->|Hk]%elem_of_cons.
  - unfold set_delete. rewrite filter_cons_False by (by intros ?).
    fold (set_delete x l). rewrite set_delete_notin by done. cbn. lia.
  - unfold set_delete. rewrite filter_cons_True by (intros ->; done).
    fold (set_delete k l). cbn. rewrite IH by done. lia.
Qed.

Lemma zsum_ext f g l : (∀ k, k ∈ l → f k = g k) → zsum f l = zsum g l.
Proof.
  induction l as [|x l IH]; [done|]. intros H. cbn.
  rewrite (H x) by left. rewrite IH; [done|]. intros k Hk. apply H. by right.
Qed.

Lemma zcost_insert_flag m k p b k' :
  m !! k = Some p → zcost (<[k := set_selected b p]> m) k' = zcost m k'.
Proof.
  intros Hk. unfold zcost. destruct (decide (k = k')) as [<-|Hne].
  - by rewrite lookup_insert_eq, Hk.
  - by rewrite lookup_insert_ne.
Qed.

Lemma nonneg_costs_lookup m k p :
  nonneg_costs m → m !! k = Some p → ∃ z, points p = Num z ∧ 0 ≤ z.
Proof.
  intros Hm Hk. specialize (Hm k p Hk). unfold nonneg_cost in Hm.
  destruct (points p) as [|z]; [done|]. by exists z.
Qed.

Lemma zcost_nonneg m k : nonneg_costs m → 0 ≤ zcost m k.
Proof.
  intros Hm. unfold zcost. destruct (m !! k) as [p|] eqn:Hk; [|done].
  destruct (nonneg_costs_lookup m k p Hm Hk) as (z & -> & Hz). done.
Qed.

Lemma nonneg_costs_insert_flag m k p b :
  m !! k = Some p → nonneg_costs m → nonneg_costs (<[k := set_selected b p]> m).
Proof.
  intros Hk Hm k' p'. destruct (decide (k = k')) as [<-|Hne].
  - rewrite lookup_insert_eq. intros [= <-]. exact (Hm k p Hk).
  - rewrite lookup_insert_ne by done. apply Hm.
Qed.

Lemma nonneg_costs_clear_flags m :
  nonneg_costs m → nonneg_costs (set_selected false <$> m).
Proof.
  intros Hm k p. rewrite lookup_fmap.
  destruct (m !! k) as [q|] eqn:Hk; [|done]. intros [= <-]. exact (Hm k q Hk).
Qed.

(** With integer costs [calculateTotalPoints] is the sum of the costs. *)
Lemma calculateTotalPoints_zsum s :
  nonneg_costs (products s) →
  calculateTotalPoints s = Num (zsum (zcost (products s)) (selectedProducts s)).
Proof.
  intros Hm. unfold calculateTotalPoints.
  assert (∀ l a,
    fold_left (λ total productId,
      match products s !! productId with
      | Some product => add total (points product)
      | None => total
      end) l (Num a) = Num (a + zsum (zcost (products s)) l)) as H.
  { induction l as [|k l IH]; intros a; cbn; [f_equal; lia|].
    unfold zcost at 1. destruct (products s !! k) as [p|] eqn:Hk.
    - destruct (nonneg_costs_lookup _ k p Hm Hk) as (z & -> & _).
      rewrite IH. f_equal. lia.
    - rewrite IH. f_equal; lia. }
  by rewrite H.
Qed.

(** ** Consistency of the set and the flags *)

Lemma consistent_core s s' :
  selectedProducts s' = selectedProducts s → products s' = products s →
  consistent s → consistent s'.
Proof. intros Hs Hp [H1 H2 H3]. split; rewrite ?Hs, ?Hp; done. Qed.

Lemma consistent_toggle k s s' :
  selectedProducts s' = toggle_selection k s →
  products s' = toggle_products k s →
  consistent s → consistent s'.
Proof.
  intros Hs Hp [Hnd Hfl Hid]. unfold toggle_selection, toggle_products in *.
  destruct (products s !! k) as [p|] eqn:Hk;
    [|split; rewrite ?Hs, ?Hp; done].
  destruct (selected p) eqn:Hsel;
    [|destruct (le (add (calculateTotalPoints s) (points p))
                 (availablePoints s));
      [|split; rewrite ?Hs, ?Hp; done]].
  - split; rewrite ?Hs, ?Hp.
    + by apply NoDup_set_delete.
    + intros k'. rewrite elem_of_set_delete, Hfl.
      destruct (decide (k = k')) as [<-|Hne].
      * rewrite lookup_insert_eq. split; [by intros [_ ?]|].
        intros (q & [= <-] & Hq). done.
      * rewrite lookup_insert_ne by done. intuition congruence.
    + intros k' q. destruct (decide (k = k')) as [<-|Hne].
      * rewrite lookup_insert_eq. intros [= <-]. cbn. by apply Hid.
      * rewrite lookup_insert_ne by done. apply Hid.
  - split; rewrite ?Hs, ?Hp.
    + by apply NoDup_set_add.
    + intros k'. rewrite elem_of_set_add, Hfl.
      destruct (decide (k = k')) as [<-|Hne].
      * rewrite lookup_insert_eq. split; [|by right].
        intros _. by eexists.
      * rewrite lookup_insert_ne by done. intuition congruence.
    + intros k' q. destruct (decide (k = k')) as [<-|Hne].
      * rewrite lookup_insert_eq. intros [= <-]. cbn. by apply Hid.
      * rewrite lookup_insert_ne by done. apply Hid.
Qed.

Lemma consistent_reset s s' :
  selectedProducts s' = [] →
  products s' = set_selected false <$> products s →
  consistent s → consistent s'.
Proof.
  intros Hs Hp [Hnd Hfl Hid]. split; rewrite ?Hs, ?Hp.
  - constructor.
  - intros k. rewrite lookup_fmap. split; [by intros ?%elem_of_nil|].
    intros (p & Hk & Hsel). destruct (products s !! k); by simplify_eq/=.
  - intros k p. rewrite lookup_fmap.
    destruct (products s !! k) as [q|] eqn:Hk; [|done].
    intros [= <-]. cbn. by apply Hid.
Qed.

(** ** The budget *)

Lemma budgeted_within_budget s : budgeted s → within_budget s = true.
Proof.
  intros (Hm & z & Ha & _ & Hle). unfold within_budget.
  rewrite calculateTotalPoints_zsum, Ha by done. cbn.
  by apply bool_decide_eq_true.
Qed.

Lemma budget_of_insert_flag a l m k p b :
  m !! k = Some p →
  budget_of a l m → budget_of a l (<[k := set_selected b p]> m).
Proof.
  intros Hk (Hm & z & Ha & Hz & Hle). split.
  - by apply nonneg_costs_insert_flag.
  - exists z. split_and!; [done|done|].
    erewrite zsum_ext; [exact Hle|]. intros k' _.
    by apply zcost_insert_flag.
Qed.

Lemma toggle_budget k s :
  consistent s → budgeted s →
  budget_of (availablePoints s) (toggle_selection k s) (products s) ∧
  budget_of (availablePoints s) (toggle_selection k s) (toggle_products k s).
Proof.
  intros [Hnd Hfl Hid] Hb. pose proof Hb as (Hm & z & Ha & Hz & Hle).
  unfold toggle_selection, toggle_products.
  destruct (products s !! k) as [p|] eqn:Hk; [|by split].
  destruct (selected p) eqn:Hsel.
  - assert (budget_of (availablePoints s)
              (set_delete k (selectedProducts s)) (products s)) as Hb'.
    { split; [done|]. exists z. split_and!; [done..|].
      rewrite zsum_set_delete; [|done|apply Hfl; eauto].
      pose proof (zcost_nonneg _ k Hm). lia. }
    split; [done|]. by apply budget_of_insert_flag.
  - unfold budgeted in Hb. rewrite calculateTotalPoints_zsum by done.
    rewrite Ha in Hb |- *.
    destruct (nonneg_costs_lookup _ k p Hm Hk) as (c & Hc & Hc0).
    rewrite Hc. cbn.
    case_bool_decide as Hfit; [|by split].
    assert (budget_of (Num z) (set_add k (selectedProducts s)) (products s))
      as Hb'.
    { split; [done|]. exists z. split_and!; [done..|].
      rewrite zsum_set_add.
      - unfold zcost at 2. rewrite Hk, Hc. lia.
      - rewrite Hfl. intros (q & Hq & Hqs). congruence. }
    split; [done|]. by apply budget_of_insert_flag.
Qed.

(** ** The completion of an exchange *)

Lemma exchangeCompletion_spec s :
  let s' := exec exchangeCompletion s in
  availablePoints s' = sub (availablePoints s) (Num 0) ∧
  selectedProducts s' = [] ∧
  products s' = set_selected false <$> products s.
Proof.
  unfold exchangeCompletion. do 4 (rewrite exec_bind; cbn [write]).
  match goal with
  | |- context [exec _ ?s3] =>
      destruct (dom_only_refresh s3) as [(Ha & Hs & Hp & _) _];
      rewrite Ha, Hs, Hp
  end.
  done.
Qed.

Lemma timerFires_spec s :
  let s' := exec timerFires s in
  match pendingExchanges s with
  | O => s' = s
  | S n =>
      availablePoints s' = sub (availablePoints s) (Num 0) ∧
      selectedProducts s' = [] ∧
      products s' = set_selected false <$> products s
  end.
Proof.
  unfold timerFires. rewrite exec_bind. cbn [get].
  destruct (pendingExchanges s) as [|n]; [done|].
  rewrite exec_bind. cbn [write].
  apply (exchangeCompletion_spec (with_pendingExchanges n s)).
Qed.

(** ** Initialisation *)

Lemma forEach_write {A} (g : A → State → State) (l : list A) s :
  ∃ tr, forEach (λ x, write (g x)) l s = Ok () (fold_left (λ s x, g x s) l s) tr.
Proof.
  revert s. induction l as [|x l IH]; intros s; cbn; [by eexists|].
  unfold bind. cbn. destruct (IH (g x s)) as [tr ->]. by eexists.
Qed.

Lemma initProducts_spec s :
  ∃ tr, initProducts s
        = Ok () (with_products (catalog_of (cards (document s)) (products s)) s) tr.
Proof.
  unfold initProducts, bind. cbn [get].
  match goal with
  | |- context [forEach (λ x, write (@?g x)) ?l s] =>
      destruct (forEach_write g l s) as [tr Htr]
  end.
  cbn beta in Htr. rewrite Htr. exists ([] ++ tr). f_equal.
  unfold catalog_of. generalize (cards (document s)). clear Htr tr.
  intros cs. revert s. induction cs as [|c cs IH]; intros s; cbn.
  - by destruct s.
  - rewrite IH. done.
Qed.

Lemma catalog_of_snoc cs c m :
  catalog_of (cs ++ [c]) m = <[data_id c := product_of_card c]> (catalog_of cs m).
Proof. unfold catalog_of. by rewrite fold_left_app. Qed.

(** The catalog holds, under each identifier, the product of the last card
    carrying it. *)
Lemma catalog_of_lookup cs m k :
  catalog_of cs m !! k =
  match last_card k cs with
  | Some c => Some (product_of_card c)
  | None => m !! k
  end.
Proof.
  induction cs as [|c cs IH] using rev_ind; [done|].
  rewrite catalog_of_snoc. unfold last_card in *. rewrite filter_app.
  destruct (decide (data_id c = k)) as [Hc|Hc].
  - rewrite filter_cons_True, filter_nil by done. rewrite last_snoc.
    by rewrite <- Hc, lookup_insert_eq.
  - rewrite filter_cons_False, filter_nil, app_nil_r by done.
    by rewrite lookup_insert_ne.
Qed.

Lemma last_card_Some k cs c :
  last_card k cs = Some c → c ∈ cs ∧ data_id c = k.
Proof.
  unfold last_card. intros H%last_Some_elem_of.
  by apply list_elem_of_filter in H as [? ?].
Qed.

Lemma last_card_is_Some c cs : c ∈ cs → is_Some (last_card (data_id c) cs).
Proof.
  intros Hc. unfold last_card.
  destruct (last _) eqn:Hl; [by eexists|].
  apply last_None in Hl.
  assert (c ∈ filter (λ c', data_id c' = data_id c) cs) as Hin
    by by apply list_elem_of_filter.
  rewrite Hl in Hin. by apply elem_of_nil in Hin.
Qed.

(** The state that the constructor leaves: the budget, the empty set, the
    catalog of the cards, and no listener on the confirmation button. *)
Lemma initial_spec d :
  availablePoints (initial d) = Num 7000 ∧
  selectedProducts (initial d) = [] ∧
  products (initial d) = catalog_of (cards d) ∅ ∧
  confirmButton (initial d) = getElementById_confirmButton d ∧
  confirmListener (initial d) = false.
Proof.
  unfold initial, init. rewrite exec_bind.
  destruct (initProducts_spec (fresh d)) as [tr ->].
  do 2 (rewrite exec_bind; cbn).
  match goal with
  | |- context [exec _ ?s3] =>
      destruct (dom_only_updateConfirmButton s3) as [(Ha & Hs & Hp & Hb & Hl) _];
      rewrite Ha, Hs, Hp, Hb, Hl
  end.
  done.
Qed.

Lemma catalog_of_fresh cs k p :
  catalog_of cs ∅ !! k = Some p → id p = k ∧ selected p = false.
Proof.
  rewrite catalog_of_lookup. destruct (last_card k cs) as [c|] eqn:Hc; [|done].
  apply last_card_Some in Hc as [_ Hc]. by intros [= <-].
Qed.

Lemma initial_consistent d : consistent (initial d).
Proof.
  destruct (initial_spec d) as (_ & Hs & Hp & _). split; rewrite ?Hs, ?Hp.
  - constructor.
  - intros k. split; [by intros ?%elem_of_nil|].
    intros (p & [_ Hk]%catalog_of_fresh & Hsel). congruence.
  - intros k p Hk. by apply catalog_of_fresh in Hk as [? _].
Qed.

(** [initEventListeners] runs before the field [confirmButton] is assigned:
    the constructor attaches no listener to the confirmation button. *)
Remark constructor_attaches_no_confirm_listener d :
  confirmListener (initial d) = false.
Proof. apply initial_spec. Qed.

(** ** Steps *)

(** One goal per operation, the timer with [timerFires_spec] at hand. *)
Ltac step_cases s op k el answer H :=
  unfold step; destruct op as [k el|answer| |]; cbn [perform];
  [ | | | pose proof (timerFires_spec s) as H; cbn zeta in H ].

Lemma step_consistent s op : consistent s → consistent (step s op).
Proof.
  intros Hs. step_cases s op k el answer H.
  - destruct (toggle_spec k el s) as [(_ & Hsel & Hp) _].
    by eapply consistent_toggle.
  - destruct (dom_only_confirmClick answer s) as [(_ & Hsel & Hp & _) _].
    by eapply consistent_core.
  - destruct (dom_only_processExchange s) as [(_ & Hsel & Hp & _) _].
    by eapply consistent_core.
  - destruct (pendingExchanges s); [by rewrite H|].
    destruct H as (_ & Hsel & Hp). by eapply consistent_reset.
Qed.

Lemma run_snoc ops op s : run (ops ++ [op]) s = step (run ops s) op.
Proof. unfold run. by rewrite fold_left_app. Qed.

Lemma run_consistent ops s : consistent s → consistent (run ops s).
Proof.
  intros Hs. induction ops as [|op ops IH] using rev_ind; [done|].
  rewrite run_snoc. by apply step_consistent.
Qed.

(** No step changes the budget or the references to the button. *)
Lemma step_availablePoints s op a :
  availablePoints s = Num a → availablePoints (step s op) = Num a.
Proof.
  intros Ha. step_cases s op k el answer H.
  - destruct (toggle_spec k el s) as [(-> & _) _]. done.
  - destruct (dom_only_confirmClick answer s) as [(-> & _) _]. done.
  - destruct (dom_only_processExchange s) as [(-> & _) _]. done.
  - destruct (pendingExchanges s); [by rewrite H|].
    destruct H as (-> & _). rewrite Ha. cbn. f_equal. lia.
Qed.

Lemma run_availablePoints ops s a :
  availablePoints s = Num a → availablePoints (run ops s) = Num a.
Proof.
  intros Hs. induction ops as [|op ops IH] using rev_ind; [done|].
  rewrite run_snoc. by apply step_availablePoints.
Qed.

Lemma step_budgeted s op : consistent s → budgeted s → budgeted (step s op).
Proof.
  intros Hc Hb. unfold budgeted. step_cases s op k el answer H.
  - destruct (toggle_spec k el s) as [(-> & -> & ->) _].
    by apply toggle_budget.
  - destruct (dom_only_confirmClick answer s) as [(-> & -> & -> & _) _]. done.
  - destruct (dom_only_processExchange s) as [(-> & -> & -> & _) _]. done.
  - destruct (pendingExchanges s); [by rewrite H|].
    destruct H as (-> & -> & ->). destruct Hb as (Hm & z & -> & Hz & _).
    split; [by apply nonneg_costs_clear_flags|].
    exists z. cbn. split_and!; [f_equal; lia|done..].
Qed.

Lemma run_budgeted ops s :
  consistent s → budgeted s → budgeted (run ops s).
Proof.
  intros Hc Hb. induction ops as [|op ops IH] using rev_ind; [done|].
  rewrite run_snoc. apply step_budgeted; [by apply run_consistent|done].
Qed.

Lemma initial_budgeted d :
  nonneg_costs (products (initial d)) → budgeted (initial d).
Proof.
  intros Hm. destruct (initial_spec d) as (Ha & Hs & _).
  split; [done|]. exists 7000. rewrite Hs. done.
Qed.

(** * The claims *)

(** ** The scenario with a budget of 7000 *)

(** C8. With 7000 points and nothing selected: a click on card A (3000)
    selects it and leaves 4000; a click on card B (5000) is rejected and
    leaves 4000; a second click on A deselects it and leaves 7000; a click on
    B now selects it and leaves 2000. *)
Theorem scenario_budget_7000 :
  let s0 := initial docAB in
  let s1 := exec (cardClick 0) s0 in
  let s2 := exec (cardClick 1) s1 in
  let s3 := exec (cardClick 0) s2 in
  let s4 := exec (cardClick 1) s3 in
  (availablePoints s0 = Num 7000 ∧ selectedProducts s0 = []) ∧
  (selectedProducts s1 = [Some "A"] ∧ flag (Some "A") s1 = Some true ∧
   remainingPoints s1 = Num 4000 ∧ displayed s1 = Some "4000 Puntos") ∧
  (selectedProducts s2 = [Some "A"] ∧ flag (Some "B") s2 = Some false ∧
   remainingPoints s2 = Num 4000 ∧ displayed s2 = Some "4000 Puntos") ∧
  (selectedProducts s3 = [] ∧ flag (Some "A") s3 = Some false ∧
   remainingPoints s3 = Num 7000 ∧ displayed s3 = Some "7000 Puntos") ∧
  (selectedProducts s4 = [Some "B"] ∧ flag (Some "B") s4 = Some true ∧
   remainingPoints s4 = Num 2000 ∧ displayed s4 = Some "2000 Puntos").
Proof. vm_compute. by repeat split. Qed.

(** ** The exchange *)

(** What the completion of an exchange does to the fields, in any state: the
    set is emptied, the flags are cleared, and the total that is subtracted
    from the budget is computed on the emptied set. *)
Lemma exchangeCompletion_effect s :
  let s' := exec exchangeCompletion s in
  selectedProducts s' = [] ∧
  (∀ k p, products s' !! k = Some p → selected p = false) ∧
  availablePoints s' = sub (availablePoints s) (Num 0).
Proof.
  destruct (exchangeCompletion_spec s) as (Ha & Hs & Hp).
  split_and!; [done| |done].
  intros k p. rewrite Hp, lookup_fmap.
  destruct (products s !! k); [|done]. by intros [= <-].
Qed.

(** C1. With A (3000 points) selected and the exchange confirmed, the
    completion empties the set and clears the flags, but leaves
    [availablePoints] at 7000: the 3000 points are not deducted. *)
Theorem exchange_does_not_deduct :
  let s := run [OpToggle (Some "A") 0; OpConfirmClick true] (initial docAB) in
  let s' := step s OpTimer in
  (selectedProducts s = [Some "A"] ∧ calculateTotalPoints s = Num 3000 ∧
   availablePoints s = Num 7000 ∧ pendingExchanges s = 1%nat) ∧
  (selectedProducts s' = [] ∧
   flag (Some "A") s' = Some false ∧ flag (Some "B") s' = Some false ∧
   pendingExchanges s' = 0%nat) ∧
  availablePoints s' = Num 7000 ∧
  availablePoints s' ≠ sub (availablePoints s) (calculateTotalPoints s).
Proof. vm_compute. by repeat split. Qed.

(** C2. While the exchange started with A selected is pending, a click on
    card B (rejected: 3000 + 5000 > 7000) runs [updateConfirmButton], which
    enables the confirmation button again; the listener of the button then
    starts a second exchange. *)
Theorem toggle_enables_confirm_while_pending :
  let s1 := run [OpToggle (Some "A") 0; OpConfirmClick true] (initial docAB) in
  let s2 := step s1 (OpToggle (Some "B") 1) in
  let s3 := step s2 (OpConfirmClick true) in
  (pendingExchanges s1 = 1%nat ∧ confirm_disabled s1 = Some true) ∧
  (pendingExchanges s2 = 1%nat ∧ confirm_disabled s2 = Some false) ∧
  pendingExchanges s3 = 2%nat.
Proof. vm_compute. by repeat split. Qed.

(** C10. In every state reached from the construction on a document,
    [availablePoints] is an integer of at most 7000, and no operation (toggle,
    click on the confirmation button, exchange, completion) leaves it
    larger than it was. *)
Theorem availablePoints_never_increases (d : Document) (ops : list Op) (op : Op) :
  let s := run ops (initial d) in
  ∃ a a', availablePoints s = Num a ∧ availablePoints (step s op) = Num a' ∧
          a' ≤ a ∧ a ≤ 7000.
Proof.
  destruct (initial_spec d) as (Ha & _). exists 7000, 7000.
  pose proof (run_availablePoints ops _ _ Ha) as Hs.
  split_and!; [done|by apply step_availablePoints|done..].
Qed.

(** ** The set and the flags *)

(** C7. In every state reached from the construction on a document by the
    operations of the controller, an identifier is in the selection set if
    and only if the catalog holds a product with that identifier whose flag
    is set. *)
Theorem selection_matches_flags (d : Document) (ops : list Op) (k : key) :
  let s := run ops (initial d) in
  k ∈ selectedProducts s ↔
  ∃ p, products s !! k = Some p ∧ id p = k ∧ selected p = true.
Proof.
  destruct (run_consistent ops _ (initial_consistent d)) as [_ Hfl Hid].
  cbn zeta. rewrite Hfl. split.
  - intros (p & Hk & Hsel). exists p. split_and!; [done|by apply Hid|done].
  - intros (p & Hk & _ & Hsel). by exists p.
Qed.

(** ** Rejected selections *)

(** C6. A toggle of an unselected product whose cost does not fit in the
    budget changes neither the selection set, nor any flag, nor
    [availablePoints], at any point of its execution. *)
Theorem rejected_selection_changes_nothing
    (s : State) (productId : key) (element : nat) (product : Product) :
  products s !! productId = Some product →
  selected product = false →
  le (add (calculateTotalPoints s) (points product)) (availablePoints s) = false →
  unchanged s (exec (toggleProductSelection productId element) s) ∧
  Forall (unchanged s) (states (toggleProductSelection productId element) s).
Proof.
  intros Hk Hsel Hle.
  destruct (toggle_spec productId element s) as [(Ha & Hs & Hp) Htr].
  unfold toggle_midway, toggle_selection, toggle_products in *.
  rewrite Hk, Hsel, Hle in *. split; [done|].
  eapply Forall_impl; [exact Htr|]. intros s' (? & ? & [?|?]); by split.
Qed.

Lemma rejected_selection_changes_nothing_witness :
  let s := exec (cardClick 0) (initial docAB) in
  unchanged s (exec (toggleProductSelection (Some "B") 1) s) ∧
  Forall (unchanged s) (states (toggleProductSelection (Some "B") 1) s).
Proof.
  apply (rejected_selection_changes_nothing _ (Some "B") 1
           (mkProduct (Some "B") (Num 5000) false));
    vm_compute; reflexivity.
Defined.

(** ** The budget under toggles *)

Lemma toggle_midway_within_budget k s s' :
  consistent s → budgeted s → toggle_midway k s s' → within_budget s' = true.
Proof.
  intros Hc Hb (Ha & Hs & Hp). apply budgeted_within_budget.
  unfold budgeted. rewrite Ha, Hs.
  destruct (toggle_budget k s Hc Hb) as [H1 H2].
  by destruct Hp as [-> | ->].
Qed.

Lemma history_toggles_within_budget ts s :
  consistent s → budgeted s →
  Forall (λ s', within_budget s' = true) (history (toggles ts) s).
Proof.
  revert s. induction ts as [|[k el] ts IH]; intros s Hc Hb; [constructor|].
  cbn [toggles map history fst snd perform].
  destruct (toggle_spec k el s) as [_ Htr].
  apply Forall_app. split.
  - eapply Forall_impl; [exact Htr|]. intros s'.
    by apply toggle_midway_within_budget.
  - constructor.
    + apply budgeted_within_budget. by apply step_budgeted.
    + apply IH; [by apply step_consistent|by apply step_budgeted].
Qed.

(** C3. Start from the state built on a document whose costs are non-negative
    integers (the selection is empty). Along every sequence of toggles the
    total cost of the selection is at most [availablePoints]: in the initial
    state, after every toggle, and in every state a toggle goes through
    between two writes. *)
Theorem toggles_stay_within_budget (d : Document) (ts : list (key * nat)) :
  nonneg_costs (products (initial d)) →
  selectedProducts (initial d) = [] ∧
  within_budget (initial d) = true ∧
  Forall (λ s, within_budget s = true) (history (toggles ts) (initial d)).
Proof.
  intros Hm. pose proof (initial_budgeted d Hm) as Hb.
  split_and!.
  - apply initial_spec.
  - by apply budgeted_within_budget.
  - apply history_toggles_within_budget; [apply initial_consistent|done].
Qed.

Lemma toggles_stay_within_budget_witness :
  selectedProducts (initial docAB) = [] ∧
  within_budget (initial docAB) = true ∧
  Forall (λ s, within_budget s = true)
    (history (toggles [(Some "A", 0%nat); (Some "B", 1%nat); (Some "A", 0%nat)])
       (initial docAB)).
Proof.
  apply (toggles_stay_within_budget docAB).
  apply (bool_decide_unpack (nonneg_costs _)). vm_compute. exact I.
Defined.

(** ** Toggling twice *)

Lemma set_add_delete_Permutation k l :
  NoDup l → k ∈ l → set_add k (set_delete k l) ≡ₚ l.
Proof.
  intros Hnd Hk. apply NoDup_Permutation; [|done|].
  - by apply NoDup_set_add, NoDup_set_delete.
  - intros k'. rewrite elem_of_set_add, elem_of_set_delete.
    destruct (decide (k' = k)) as [->|Hne]; tauto.
Qed.

Lemma set_selected_restore p :
  selected p = true → set_selected true (set_selected false p) = p.
Proof. destruct p as [i pts sel]. cbn. by intros ->. Qed.

(** ** Cards with missing attributes *)

Lemma updateConfirmButton_throws s :
  throws updateConfirmButton s =
  match confirmButton s, button (document s) with
  | TheButton, Some _ => false
  | _, _ => true
  end.
Proof.
  destruct s as [a l m r [cs b pv] cl pe].
  unfold updateConfirmButton, throws, bind, setButton, get. cbn.
  destruct r, b; cbn; try done; by case_bool_decide.
Qed.

Lemma init_throws d :
  throws initProducts (fresh d) = false ∧
  throws init (fresh d) = match button d with Some _ => false | None => true end.
Proof.
  unfold init. rewrite throws_bind. unfold throws at 1.
  destruct (initProducts_spec (fresh d)) as [tr ->]. split; [done|].
  do 2 (rewrite throws_bind; cbn).
  rewrite updateConfirmButton_throws. cbn.
  unfold getElementById_confirmButton. by destruct (button d).
Qed.

(** C4. No scanned card is skipped. For every card [c] of the document, also
    one without identifier or without cost, the catalog built by the
    constructor holds, under the identifier of [c] ([undefined] when it is
    missing), an unselected product with that identifier; its points are what
    [parseInt] gives on the cost attribute of the last card with that
    identifier, NaN when that attribute is missing. [initProducts] does not
    throw, and neither does [init] when the document has the confirmation
    button. *)
Theorem initProducts_keeps_every_card (d : Document) (c : Card) :
  c ∈ cards d →
  throws initProducts (fresh d) = false ∧
  (is_Some (button d) → throws init (fresh d) = false) ∧
  ∃ c' p,
    last_card (data_id c) (cards d) = Some c' ∧
    products (initial d) !! data_id c = Some p ∧
    id p = data_id c ∧
    selected p = false ∧
    points p = parseInt (ToString (data_points c')) ∧
    (data_points c' = None → points p = NaN).
Proof.
  intros Hc. destruct (init_throws d) as [Hp Hi]. split_and!; [done| |].
  - intros [b Hb]. by rewrite Hi, Hb.
  - destruct (last_card_is_Some c (cards d) Hc) as [c' Hc'].
    exists c', (product_of_card c').
    destruct (initial_spec d) as (_ & _ & -> & _).
    rewrite catalog_of_lookup, Hc'.
    apply last_card_Some in Hc' as [_ Hid].
    split_and!; [done|done|done|done|done|].
    cbn. by intros ->.
Qed.

Lemma initProducts_keeps_every_card_witness :
  throws initProducts (fresh docMalformed) = false ∧
  (is_Some (button docMalformed) → throws init (fresh docMalformed) = false) ∧
  ∃ c' p,
    last_card None (cards docMalformed) = Some c' ∧
    products (initial docMalformed) !! None = Some p ∧
    id p = None ∧
    selected p = false ∧
    points p = parseInt (ToString (data_points c')) ∧
    (data_points c' = None → points p = NaN).
Proof.
  apply (initProducts_keeps_every_card docMalformed (mkCard None None false)).
  vm_compute. left.
Defined.

(** The catalog of [initProducts] is not the one that skips the cards with a
    missing attribute: for the card without attributes a product is stored
    under [undefined], with NaN points. *)
Lemma initProducts_does_not_skip :
  mkCard None None false ∈ cards docMalformed ∧
  products (exec initProducts (fresh docMalformed)) !! None
    = Some (mkProduct None NaN false) ∧
  catalog_skipping (cards docMalformed) !! None = None ∧
  products (exec initProducts (fresh docMalformed))
    ≠ catalog_skipping (cards docMalformed).
Proof.
  assert (products (exec initProducts (fresh docMalformed)) !! None
          = Some (mkProduct None NaN false)) as H1 by (by vm_compute).
  assert (catalog_skipping (cards docMalformed) !! None = None) as H2
    by (by vm_compute).
  split_and!; [left|done|done|].
  intros Heq. rewrite Heq in H1. congruence.
Qed.

(** ** The missing confirmation button *)

Lemma toggle_throws k el s :
  confirmButton s ≠ TheButton → is_Some (products s !! k) →
  throws (toggleProductSelection k el) s = true.
Proof.
  intros Hr [p Hk]. unfold toggleProductSelection.
  rewrite throws_bind. cbn [get]. rewrite Hk. rewrite throws_bind.
  assert (∀ s3, confirmButton s3 = confirmButton s →
            throws (updateConfirmButton >> updatePointsDisplay) s3 = true) as H.
  { intros s3 H3. rewrite throws_bind.
    pose proof (updateConfirmButton_throws s3) as Hu. rewrite H3 in Hu.
    unfold throws in Hu. destruct (updateConfirmButton s3); [|done].
    by destruct (confirmButton s). }
  destruct (selected p);
    [|destruct (le (add (calculateTotalPoints s) (points p))
                 (availablePoints s))]; cbn; by apply H.
Qed.

(** C5. On a document without the confirmation button the constructor throws
    a [TypeError] (in [updateConfirmButton]) and leaves [null] in the field;
    from then on, in any state with [null] in the field,
    [updateConfirmButton] throws, and so does every toggle of a product of the
    catalog. *)
Theorem missing_button_throws (d : Document) :
  button d = None →
  throws init (fresh d) = true ∧
  confirmButton (initial d) = Null ∧
  ∀ s, confirmButton s = Null →
    throws updateConfirmButton s = true ∧
    ∀ k el, is_Some (products s !! k) →
      throws (toggleProductSelection k el) s = true.
Proof.
  intros Hb. destruct (init_throws d) as [_ Hi].
  destruct (initial_spec d) as (_ & _ & _ & Hr & _).
  split_and!.
  - by rewrite Hi, Hb.
  - rewrite Hr. unfold getElementById_confirmButton. by rewrite Hb.
  - intros s Hs. split.
    + rewrite updateConfirmButton_throws. by rewrite Hs.
    + intros k el Hk. apply toggle_throws; [|done]. by rewrite Hs.
Qed.

Lemma missing_button_throws_witness :
  throws init (fresh docNoButton) = true ∧
  confirmButton (initial docNoButton) = Null ∧
  ∀ s, confirmButton s = Null →
    throws updateConfirmButton s = true ∧
    ∀ k el, is_Some (products s !! k) →
      throws (toggleProductSelection k el) s = true.
Proof. apply (missing_button_throws docNoButton). reflexivity. Defined.

(** On the sample document without the button: the constructor throws, and a
    click on card A selects A and then throws before the display of the
    remaining points is refreshed. *)
Lemma missing_button_example :
  let s := initial docNoButton in
  throws init (fresh docNoButton) = true ∧
  throws (cardClick 0) s = true ∧
  selectedProducts (exec (cardClick 0) s) = [Some "A"] ∧
  displayed (exec (cardClick 0) s) = Some "7000 Puntos".
Proof. vm_compute. by repeat split. Qed.

(** * Further properties *)

(** ** The refreshes on a page with the button *)

Lemma updateConfirmButton_run s :
  has_button s → ∃ tr, updateConfirmButton s = Ok () (refreshButton s) tr.
Proof.
  destruct s as [a l m r [cs b pv] cl pe]. intros [Hr [b' Hb]].
  cbn in Hr, Hb. subst r b.
  unfold updateConfirmButton, refreshButton, refreshedButton, bind, setButton,
    get, write. cbn.
  case_bool_decide; cbn; by eexists.
Qed.

Lemma updatePointsDisplay_run s :
  ∃ tr, updatePointsDisplay s = Ok () (refreshDisplay s) tr.
Proof.
  destruct s as [a l m r [cs b [pv|]] cl pe];
    unfold updatePointsDisplay, refreshDisplay, bind, get, write, ret; cbn;
    by eexists.
Qed.

Lemma refresh_run s :
  has_button s →
  ∃ tr, (updateConfirmButton >> updatePointsDisplay) s = Ok () (refresh s) tr.
Proof.
  intros Hs. unfold bind.
  destruct (updateConfirmButton_run s Hs) as [t1 ->].
  destruct (updatePointsDisplay_run (refreshButton s)) as [t2 ->].
  by eexists.
Qed.

Lemma has_button_refresh s : has_button s → has_button (refresh s).
Proof.
  destruct s as [a l m r [cs b pv] cl pe]. intros [Hr _]. cbn in Hr.
  unfold refresh, refreshDisplay, refreshButton, has_button. cbn.
  destruct pv; cbn; by eauto.
Qed.

Lemma has_button_core s s' :
  confirmButton s' = confirmButton s →
  button (document s') = button (document s) →
  has_button s → has_button s'.
Proof. intros Hr Hb [? ?]. split; by rewrite ?Hr, ?Hb. Qed.

Lemma has_button_toggle_writes k el s :
  has_button s → has_button (toggle_writes k el s).
Proof.
  intros Hs. unfold toggle_writes.
  destruct (products s !! k) as [p|]; [|done].
  destruct (selected p);
    [|destruct (le (add (calculateTotalPoints s) (points p))
                 (availablePoints s)); [|done]];
    by eapply has_button_core.
Qed.

(** The toggle of a known product, on a page with the button: the writes of
    the branch taken, then the two refreshes. *)
Lemma toggle_run k el s :
  has_button s → is_Some (products s !! k) →
  ∃ tr, toggleProductSelection k el s = Ok () (refresh (toggle_writes k el s)) tr.
Proof.
  intros Hs [p Hk].
  pose proof (has_button_toggle_writes k el s Hs) as Hs'.
  destruct (refresh_run _ Hs') as [tr Htr]. revert Htr.
  unfold toggleProductSelection, toggle_writes, mark_card,
    classList_selected.
  unfold bind at 2. cbn [get]. rewrite Hk. unfold bind at 2.
  destruct (selected p);
    [|destruct (le (add (calculateTotalPoints s) (points p))
                 (availablePoints s))]; cbn; intros ->; by eexists.
Qed.

Lemma toggle_unknown k el s :
  products s !! k = None → toggleProductSelection k el s = Ok () s [].
Proof.
  intros Hk. unfold toggleProductSelection, bind. cbn [get]. by rewrite Hk.
Qed.

Lemma exchangeCompletion_run s :
  has_button s →
  ∃ tr, exchangeCompletion s = Ok () (refresh (completion_writes s)) tr.
Proof.
  intros Hs.
  assert (has_button (completion_writes s)) as Hs'
    by (by eapply has_button_core).
  destruct (refresh_run _ Hs') as [tr Htr]. revert Htr.
  unfold exchangeCompletion, completion_writes.
  unfold bind at 2. cbn [write]. unfold bind at 2. cbn [write].
  unfold bind at 2. cbn [write]. unfold bind at 2. cbn.
  intros ->. by eexists.
Qed.

Lemma processExchange_run s :
  has_button s → ∃ tr, processExchange s = Ok () (processing s) tr.
Proof.
  destruct s as [a l m r [cs b pv] cl pe]. intros [Hr [b' Hb]].
  cbn in Hr, Hb. subst r b.
  unfold processExchange, processing, bind, setButton, write. cbn.
  by eexists.
Qed.

Lemma confirmClick_run answer s b :
  has_button s → button (document s) = Some b →
  ∃ tr, confirmClick answer s
        = Ok () (if negb (disabled b) && answer then processing s else s) tr.
Proof.
  intros Hs Hb. destruct (processExchange_run s Hs) as [tr Htr].
  destruct Hs as [Hr _].
  unfold confirmClick, bind, getButton, handleConfirmSelection.
  rewrite Hr, Hb. cbn.
  destruct (disabled b), answer; cbn; rewrite ?Htr; by eexists.
Qed.

Lemma timerFires_run s :
  has_button s →
  ∃ tr, timerFires s
        = Ok () match pendingExchanges s with
                | O => s
                | S n => refresh (completion_writes (with_pendingExchanges n s))
                end tr.
Proof.
  intros Hs. unfold timerFires, bind. cbn [get].
  destruct (pendingExchanges s) as [|n]; [by eexists|]. cbn [write].
  assert (has_button (with_pendingExchanges n s)) as Hs'
    by (by eapply has_button_core).
  destruct (exchangeCompletion_run _ Hs') as [tr ->]. by eexists.
Qed.

Lemma has_button_processing s : has_button s → has_button (processing s).
Proof. intros [Hr _]. split; [done|]. cbn. by eexists. Qed.

Lemma has_button_completion n s :
  has_button s →
  has_button (refresh (completion_writes (with_pendingExchanges n s))).
Proof. intros Hs. apply has_button_refresh. by eapply has_button_core. Qed.

(** On a page with the button no operation throws, and the button stays. *)
Lemma perform_has_button op s :
  has_button s → throws (perform op) s = false ∧ has_button (step s op).
Proof.
  intros Hs. unfold step, throws, exec.
  destruct op as [k el|answer| |]; cbn [perform].
  - destruct (products s !! k) as [p|] eqn:Hk.
    + destruct (toggle_run k el s Hs) as [tr ->]; [by eexists|].
      split; [done|]. by apply has_button_refresh, has_button_toggle_writes.
    + by rewrite toggle_unknown.
  - pose proof Hs as [_ [b Hb]].
    destruct (confirmClick_run answer s b Hs Hb) as [tr ->]. split; [done|].
    destruct (negb (disabled b) && answer); [|done].
    by apply has_button_processing.
  - destruct (processExchange_run s Hs) as [tr ->].
    split; [done|]. by apply has_button_processing.
  - destruct (timerFires_run s Hs) as [tr ->]. split; [done|].
    destruct (pendingExchanges s); [done|]. by apply has_button_completion.
Qed.

Lemma initial_with_button d :
  is_Some (button d) → initial d = constructed d ∧ has_button (initial d).
Proof.
  intros [b Hb]. unfold initial, init. rewrite exec_bind.
  destruct (initProducts_spec (fresh d)) as [tr ->].
  do 2 (rewrite exec_bind; cbn).
  unfold getElementById_confirmButton. rewrite Hb.
  set (s3 := with_confirmButton _ _).
  assert (has_button s3) as H3 by (split; [done|]; cbn; by rewrite Hb).
  unfold exec. destruct (updateConfirmButton_run s3 H3) as [t ->].
  split; [done|]. split; [done|]. cbn. by eexists.
Qed.

Lemma run_has_button d ops :
  is_Some (button d) → has_button (run ops (initial d)).
Proof.
  intros Hd. induction ops as [|op ops IH] using rev_ind.
  - by apply initial_with_button.
  - rewrite run_snoc. by apply perform_has_button.
Qed.

(** ** Operations on a page with the button *)

(** X1. On a document with the confirmation button the constructor does not
    throw, and in every state reached afterwards neither a toggle, nor
    [processExchange], nor the completion of an exchange throws. (The click
    on the confirmation button is left out: the summary it builds is not
    modelled.) *)
Theorem no_throw_with_button (d : Document) (ops : list Op) :
  is_Some (button d) →
  let s := run ops (initial d) in
  throws init (fresh d) = false ∧
  (∀ k element, throws (toggleProductSelection k element) s = false) ∧
  throws processExchange s = false ∧
  throws timerFires s = false.
Proof.
  intros Hd s. pose proof (run_has_button d ops Hd) as Hs. fold s in Hs.
  split_and!.
  - destruct (init_throws d) as [_ ->]. by destruct Hd as [b ->].
  - intros k el. by apply (perform_has_button (OpToggle k el)).
  - by apply (perform_has_button OpProcessExchange).
  - by apply (perform_has_button OpTimer).
Qed.

Lemma no_throw_with_button_witness :
  let s := run [OpToggle (Some "A") 0; OpConfirmClick true; OpTimer]
             (initial docAB) in
  throws init (fresh docAB) = false ∧
  (∀ k element, throws (toggleProductSelection k element) s = false) ∧
  throws processExchange s = false ∧
  throws timerFires s = false.
Proof. apply (no_throw_with_button docAB). vm_compute. by eexists. Defined.

(** X2. A toggle of an identifier that is not in the catalog changes nothing,
    writes nothing and does not throw, also when the confirmation button is
    missing. *)
Theorem toggle_unknown_product (s : State) (k : key) (element : nat) :
  products s !! k = None →
  exec (toggleProductSelection k element) s = s ∧
  states (toggleProductSelection k element) s = [] ∧
  throws (toggleProductSelection k element) s = false.
Proof.
  intros Hk. unfold exec, states, throws. by rewrite toggle_unknown.
Qed.

Lemma toggle_unknown_product_witness :
  let s := initial docNoButton in
  exec (toggleProductSelection (Some "Z") 0) s = s ∧
  states (toggleProductSelection (Some "Z") 0) s = [] ∧
  throws (toggleProductSelection (Some "Z") 0) s = false.
Proof. apply toggle_unknown_product. vm_compute. reflexivity. Defined.

(** X3. A toggle of a selected product always deselects it, whatever the
    budget: the identifier leaves the set, the flag is cleared, and the
    membership and the catalog entry of every other identifier, and
    [availablePoints], stay as they were. *)
Theorem deselect_always_succeeds
    (s : State) (k : key) (element : nat) (p : Product) :
  products s !! k = Some p →
  selected p = true →
  let s' := exec (toggleProductSelection k element) s in
  (k ∉ selectedProducts s') ∧
  products s' !! k = Some (set_selected false p) ∧
  (∀ k', k' ≠ k →
     (k' ∈ selectedProducts s' ↔ k' ∈ selectedProducts s) ∧
     products s' !! k' = products s !! k') ∧
  availablePoints s' = availablePoints s.
Proof.
  intros Hk Hsel s'.
  destruct (toggle_spec k element s) as [(Ha & Hs & Hp) _].
  fold s' in Ha, Hs, Hp. unfold toggle_selection, toggle_products in Hs, Hp.
  rewrite Hk, Hsel in Hs, Hp. rewrite Hs, Hp. split_and!.
  - rewrite elem_of_set_delete. tauto.
  - by rewrite lookup_insert_eq.
  - intros k' Hne. rewrite elem_of_set_delete, lookup_insert_ne by done. tauto.
  - done.
Qed.

Lemma deselect_always_succeeds_witness :
  let s := exec (cardClick 0) (initial docAB) in
  let s' := exec (toggleProductSelection (Some "A") 0) s in
  (Some "A" ∉ selectedProducts s') ∧
  products s' !! Some "A"
    = Some (set_selected false (mkProduct (Some "A") (Num 3000) true)) ∧
  (∀ k', k' ≠ Some "A" →
     (k' ∈ selectedProducts s' ↔ k' ∈ selectedProducts s) ∧
     products s' !! k' = products s !! k') ∧
  availablePoints s' = availablePoints s.
Proof.
  apply (deselect_always_succeeds _ (Some "A") 0
           (mkProduct (Some "A") (Num 3000) true));
    vm_compute; reflexivity.
Defined.

(** ** The confirmation button and the selection *)

Lemma refreshedButton_refresh s : refreshedButton (refresh s) = refreshedButton s.
Proof.
  destruct s as [a l m r [cs b [pv|]] cl pe]; reflexivity.
Qed.

Lemma button_refresh s : button (document (refresh s)) = Some (refreshedButton s).
Proof.
  destruct s as [a l m r [cs b [pv|]] cl pe]; reflexivity.
Qed.

Lemma toggles_snoc ts t : toggles (ts ++ [t]) = toggles ts ++ [OpToggle t.1 t.2].
Proof. unfold toggles. by rewrite map_app. Qed.

(** X4. On a document with the confirmation button, after the constructor and
    after any sequence of toggles, the button is disabled exactly when the
    selection is empty; its label is the generic one when the selection is
    empty, and otherwise gives the number of selected products (with the
    plural from two on) and their total. *)
Theorem button_follows_selection (d : Document) (ts : list (key * nat)) :
  is_Some (button d) →
  let s := run (toggles ts) (initial d) in
  button (document s) = Some (refreshedButton s) ∧
  confirm_disabled s = Some (bool_decide (selectedProducts s = [])).
Proof.
  intros Hd s.
  assert (button (document s) = Some (refreshedButton s)) as H.
  { subst s. induction ts as [|[k el] ts IH] using rev_ind.
    - destruct (initial_with_button d Hd) as [-> _]. reflexivity.
    - rewrite toggles_snoc, run_snoc. cbn [fst snd].
      set (s := run (toggles ts) (initial d)) in *.
      pose proof (run_has_button d (toggles ts) Hd) as Hs. fold s in Hs.
      unfold step, exec. cbn [perform].
      destruct (products s !! k) as [p|] eqn:Hk.
      + destruct (toggle_run k el s Hs) as [tr ->]; [by eexists|].
        by rewrite button_refresh, refreshedButton_refresh.
      + by rewrite toggle_unknown. }
  split; [done|]. unfold confirm_disabled. rewrite H.
  unfold refreshedButton. destruct (selectedProducts s); cbn; [done|].
  rewrite bool_decide_eq_true_2 by lia. done.
Qed.

Lemma button_follows_selection_witness :
  let s := run (toggles [(Some "A", 0%nat); (Some "B", 1%nat)]) (initial docAB) in
  button (document s) = Some (refreshedButton s) ∧
  confirm_disabled s = Some (bool_decide (selectedProducts s = [])).
Proof. apply (button_follows_selection docAB). vm_compute. by eexists. Defined.

Lemma disabled_when_empty_step s op :
  has_button s →
  (selectedProducts s = [] → confirm_disabled s = Some true) →
  selectedProducts (step s op) = [] → confirm_disabled (step s op) = Some true.
Proof.
  intros Hs Hinv. unfold step, exec.
  destruct op as [k el|answer| |]; cbn [perform].
  - destruct (products s !! k) as [p|] eqn:Hk.
    + destruct (toggle_run k el s Hs) as [tr ->]; [by eexists|].
      unfold confirm_disabled. rewrite button_refresh.
      set (s' := toggle_writes k el s).
      assert (selectedProducts (refresh s') = selectedProducts s') as ->
        by (destruct s' as [a l m r [cs b [pv|]] cl pe]; reflexivity).
      unfold refreshedButton. by intros ->.
    + by rewrite toggle_unknown.
  - pose proof Hs as [_ [b Hb]].
    destruct (confirmClick_run answer s b Hs Hb) as [tr ->].
    destruct (negb (disabled b) && answer); done.
  - destruct (processExchange_run s Hs) as [tr ->]. done.
  - destruct (timerFires_run s Hs) as [tr ->].
    destruct (pendingExchanges s) as [|n]; [done|]. intros _.
    unfold confirm_disabled. by rewrite button_refresh.
Qed.

(** X5. On a document with the confirmation button, in every state reached
    by any operations, an empty selection means a disabled button, and a
    click on the button then changes nothing: no exchange starts from an
    empty selection. *)
Theorem no_exchange_from_empty_selection
    (d : Document) (ops : list Op) (answer : bool) :
  is_Some (button d) →
  let s := run ops (initial d) in
  selectedProducts s = [] →
  confirm_disabled s = Some true ∧
  exec (confirmClick answer) s = s.
Proof.
  intros Hd s Hempty.
  assert (confirm_disabled s = Some true) as Hdis.
  { subst s. revert Hempty. induction ops as [|op ops IH] using rev_ind.
    - destruct (initial_with_button d Hd) as [-> _]. done.
    - rewrite run_snoc. apply disabled_when_empty_step; [|done].
      by apply run_has_button. }
  split; [done|].
  pose proof (run_has_button d ops Hd) as Hs. fold s in Hs.
  unfold confirm_disabled in Hdis.
  destruct (button (document s)) as [b|] eqn:Hb; [|done].
  injection Hdis as Hdis. unfold exec.
  destruct (confirmClick_run answer s b Hs Hb) as [tr ->].
  by rewrite Hdis.
Qed.

Lemma no_exchange_from_empty_selection_witness :
  let s := run [OpToggle (Some "A") 0; OpConfirmClick true; OpTimer]
             (initial docAB) in
  confirm_disabled s = Some true ∧
  exec (confirmClick true) s = s.
Proof.
  apply (no_exchange_from_empty_selection docAB
           [OpToggle (Some "A") 0; OpConfirmClick true; OpTimer] true).
  - vm_compute. by eexists.
  - vm_compute. reflexivity.
Defined.

(** ** The display of the remaining points *)

Lemma pointsValue_refresh s pv :
  pointsValue (document s) = Some pv →
  pointsValue (document (refresh s)) = Some (refreshedPointsValue (refresh s)).
Proof.
  destruct s as [a l m r [cs b [pv'|]] cl pe]; [|done]. reflexivity.
Qed.

Lemma pointsValue_toggle_writes k el s :
  pointsValue (document (toggle_writes k el s)) = pointsValue (document s).
Proof.
  unfold toggle_writes. destruct (products s !! k) as [p|]; [|done].
  destruct (selected p);
    [|destruct (le (add (calculateTotalPoints s) (points p))
                 (availablePoints s))]; done.
Qed.

(** X6. On a page with the confirmation button and the display, after a
    toggle of a product of the catalog (accepted or rejected) the display reads
    the remaining points, [availablePoints] minus the total of the selection,
    followed by " Puntos", and carries the low-points marker exactly when the
    remaining points are below 1000. *)
Theorem display_follows_toggle
    (s : State) (k : key) (element : nat) :
  has_button s →
  is_Some (products s !! k) →
  is_Some (pointsValue (document s)) →
  let s' := exec (toggleProductSelection k element) s in
  pointsValue (document s') =
  Some {| textContent := to_string (remainingPoints s') +:+ " Puntos";
          class_low_points := lt (remainingPoints s') (Num 1000) |}.
Proof.
  intros Hs Hk [pv Hpv] s'. subst s'. unfold exec.
  destruct (toggle_run k element s Hs Hk) as [tr ->].
  eapply pointsValue_refresh. by rewrite pointsValue_toggle_writes.
Qed.

Lemma display_follows_toggle_witness :
  let s := initial docAB in
  let s' := exec (toggleProductSelection (Some "A") 0) s in
  pointsValue (document s') =
  Some {| textContent := to_string (remainingPoints s') +:+ " Puntos";
          class_low_points := lt (remainingPoints s') (Num 1000) |}.
Proof.
  apply (display_follows_toggle (initial docAB) (Some "A") 0).
  - split; [reflexivity|]. vm_compute. by eexists.
  - vm_compute. by eexists.
  - vm_compute. by eexists.
Defined.

(** ** What a computation leaves alone *)

Lemma keeps_ret {A B} (f : State → B) (a : A) : keeps f (ret a).
Proof. by intros s. Qed.

Lemma keeps_get {B} (f : State → B) : keeps f get.
Proof. by intros s. Qed.

Lemma keeps_write {B} (f : State → B) g :
  (∀ s, f (g s) = f s) → keeps f (write g).
Proof. intros Hg s. apply Hg. Qed.

Lemma keeps_bind {A B C} (f : State → C) (m : M A) (k : A → M B) :
  keeps f m → (∀ a, keeps f (k a)) → keeps f (bind m k).
Proof.
  intros Hm Hk s. rewrite exec_bind. specialize (Hm s). unfold exec in Hm.
  destruct (m s) as [a s1 t1|s1 t1]; [|done]. by rewrite Hk.
Qed.

Lemma keeps_setButton {B} (f : State → B) g :
  (∀ b s, f (with_document (with_button b (document s)) s) = f s) →
  keeps f (setButton g).
Proof.
  intros Hf s. unfold setButton, exec.
  destruct (confirmButton s), (button (document s)); cbn; by rewrite ?Hf.
Qed.

Lemma keeps_getButton {B} (f : State → B) : keeps f getButton.
Proof.
  intros s. unfold getButton, exec.
  by destruct (confirmButton s), (button (document s)).
Qed.

Lemma keeps_updateConfirmButton {B} (f : State → B) :
  (∀ b s, f (with_document (with_button b (document s)) s) = f s) →
  keeps f updateConfirmButton.
Proof.
  intros Hf. apply keeps_bind; [apply keeps_get|]. intros s.
  apply keeps_bind; [by apply keeps_setButton|]. intros _.
  case_bool_decide; by apply keeps_setButton.
Qed.

Lemma keeps_updatePointsDisplay {B} (f : State → B) :
  (∀ v s, f (with_document (with_pointsValue v (document s)) s) = f s) →
  keeps f updatePointsDisplay.
Proof.
  intros Hf s. unfold exec.
  destruct (updatePointsDisplay_run s) as [tr ->]. unfold refreshDisplay.
  destruct (pointsValue (document s)); [apply Hf|done].
Qed.

Lemma keeps_processExchange {B} (f : State → B) :
  (∀ b s, f (with_document (with_button b (document s)) s) = f s) →
  (∀ n s, f (with_pendingExchanges n s) = f s) →
  keeps f processExchange.
Proof.
  intros Hf Hn. apply keeps_bind; [by apply keeps_setButton|]. intros _.
  apply keeps_bind; [by apply keeps_setButton|]. intros _.
  apply keeps_write. intros s. apply Hn.
Qed.

Lemma keeps_confirmClick {B} (f : State → B) answer :
  (∀ b s, f (with_document (with_button b (document s)) s) = f s) →
  (∀ n s, f (with_pendingExchanges n s) = f s) →
  keeps f (confirmClick answer).
Proof.
  intros Hf Hn. apply keeps_bind; [apply keeps_getButton|]. intros b.
  destruct (negb (disabled b)); [|apply keeps_ret].
  destruct answer; [by apply keeps_processExchange|apply keeps_ret].
Qed.

(** ** The constructor *)

(** What [init] does not write is as in the fresh state. *)
Lemma initial_frame d {B} (f : State → B) :
  (∀ b s, f (with_document (with_button b (document s)) s) = f s) →
  (∀ m s, f (with_products m s) = f s) →
  (∀ r s, f (with_confirmButton r s) = f s) →
  f (initial d) = f (fresh d).
Proof.
  intros H1 H2 H3. unfold initial, init. rewrite exec_bind.
  destruct (initProducts_spec (fresh d)) as [tr ->].
  do 2 (rewrite exec_bind; cbn).
  rewrite keeps_updateConfirmButton by done.
  etransitivity; [apply H3|]. etransitivity; [apply H2|]. done.
Qed.

Lemma initial_cards d : cards (document (initial d)) = cards d.
Proof. by apply (initial_frame d (λ s, cards (document s))). Qed.

(** X7. The constructor reads the cards and writes only the confirmation
    button: the cards keep their markers and the display of the remaining
    points keeps the text of the markup (it is not refreshed before the first
    toggle). With the button present, the button is left disabled with the
    generic label. *)
Theorem constructor_writes_only_the_button (d : Document) :
  cards (document (initial d)) = cards d ∧
  pointsValue (document (initial d)) = pointsValue d ∧
  (is_Some (button d) →
   button (document (initial d))
   = Some (mkButton true "<span>Confirmar Selección</span>")).
Proof.
  split_and!.
  - apply initial_cards.
  - by apply (initial_frame d (λ s, pointsValue (document s))).
  - intros Hd. destruct (initial_with_button d Hd) as [-> _]. reflexivity.
Qed.

(** X8. The catalog built by the constructor has an entry under an identifier
    exactly when some card carries that identifier, and the entry is the
    product of the last such card: among cards sharing an identifier the last
    one decides the cost. *)
Theorem catalog_has_last_card_per_id (d : Document) (k : key) :
  products (initial d) !! k = product_of_card <$> last_card k (cards d) ∧
  (is_Some (products (initial d) !! k) ↔ ∃ c, c ∈ cards d ∧ data_id c = k).
Proof.
  destruct (initial_spec d) as (_ & _ & -> & _).
  rewrite catalog_of_lookup, lookup_empty.
  split; [by destruct (last_card k (cards d))|]. split.
  - destruct (last_card k (cards d)) as [c|] eqn:Hc.
    + intros _. exists c. by apply last_card_Some.
    + by intros [? ?].
  - intros (c & Hc & <-). destruct (last_card_is_Some c _ Hc) as [c' ->].
    by eexists.
Qed.

(** ** The catalog under the operations *)

(** X9. No operation adds a product to the catalog, removes one, or changes an
    identifier or a cost: only the flags change. *)
Theorem operations_keep_catalog_entries (s : State) (op : Op) (k : key) :
  id <$> products (step s op) !! k = id <$> products s !! k ∧
  points <$> products (step s op) !! k = points <$> products s !! k.
Proof.
  assert (∀ m : gmap key Product,
    id <$> (set_selected false <$> m) !! k = id <$> m !! k ∧
    points <$> (set_selected false <$> m) !! k = points <$> m !! k) as Hreset.
  { intros m. rewrite lookup_fmap. by destruct (m !! k). }
  assert (∀ (m : gmap key Product) k0 p b, m !! k0 = Some p →
    id <$> <[k0 := set_selected b p]> m !! k = id <$> m !! k ∧
    points <$> <[k0 := set_selected b p]> m !! k = points <$> m !! k) as Hflag.
  { intros m k0 p b Hk0. destruct (decide (k0 = k)) as [<-|Hne].
    - by rewrite lookup_insert_eq, Hk0.
    - by rewrite lookup_insert_ne. }
  step_cases s op k0 el answer H.
  - destruct (toggle_spec k0 el s) as [(_ & _ & ->) _]. unfold toggle_products.
    destruct (products s !! k0) as [p|] eqn:Hk0; [|done].
    destruct (selected p);
      [|destruct (le (add (calculateTotalPoints s) (points p))
                   (availablePoints s)); [|done]];
      by apply Hflag.
  - by destruct (dom_only_confirmClick answer s) as [(_ & _ & -> & _) _].
  - by destruct (dom_only_processExchange s) as [(_ & _ & -> & _) _].
  - destruct (pendingExchanges s); [by rewrite H|].
    destruct H as (_ & _ & ->). apply Hreset.
Qed.

(** ** The completion of an exchange, on the page *)

(** X10. On a page with the confirmation button, when a scheduled completion
    fires the page is back to its baseline: the selection is empty, no card
    carries the selected marker, the button is disabled with the generic
    label, the display (when there is one) shows the whole of
    [availablePoints], and one scheduled completion less is pending. *)
Theorem completion_resets_page (s : State) (n : nat) (a : Z) :
  has_button s →
  pendingExchanges s = S n →
  availablePoints s = Num a →
  let s' := step s OpTimer in
  selectedProducts s' = [] ∧
  Forall (λ c, class_selected c = false) (cards (document s')) ∧
  button (document s') = Some (mkButton true "<span>Confirmar Selección</span>") ∧
  (is_Some (pointsValue (document s)) →
   pointsValue (document s')
   = Some (mkPointsValue (pretty a +:+ " Puntos") (bool_decide (a < 1000)))) ∧
  pendingExchanges s' = n.
Proof.
  intros Hs Hn Ha s'. subst s'. unfold step, exec. cbn [perform].
  destruct (timerFires_run s Hs) as [tr ->]. rewrite Hn.
  destruct s as [a' l m r [cs b pv] cl pe]. cbn in Ha. subst a'.
  unfold refresh, refreshDisplay, refreshButton, completion_writes. cbn.
  assert (Forall (λ c, class_selected c = false)
            (set_class_selected false <$> cs)) as Hcs.
  { apply Forall_fmap, Forall_true. done. }
  destruct pv as [pv|]; cbn; split_and!; try done.
  all: try by intros [? ?].
  intros _. unfold refreshedPointsValue, remainingPoints. cbn.
  by rewrite !Z.sub_0_r.
Qed.

Lemma completion_resets_page_witness :
  let s := run [OpToggle (Some "A") 0; OpConfirmClick true] (initial docAB) in
  let s' := step s OpTimer in
  selectedProducts s' = [] ∧
  Forall (λ c, class_selected c = false) (cards (document s')) ∧
  button (document s') = Some (mkButton true "<span>Confirmar Selección</span>") ∧
  (is_Some (pointsValue (document s)) →
   pointsValue (document s')
   = Some (mkPointsValue (pretty 7000 +:+ " Puntos") (bool_decide (7000 < 1000)))) ∧
  pendingExchanges s' = 0%nat.
Proof.
  apply (completion_resets_page _ 0 7000).
  - split; [reflexivity|]. vm_compute. by eexists.
  - reflexivity.
  - reflexivity.
Defined.

(** ** Accepted selections *)

Lemma calculateTotalPoints_ext s s' :
  selectedProducts s' = selectedProducts s →
  (∀ k, points <$> products s' !! k = points <$> products s !! k) →
  calculateTotalPoints s' = calculateTotalPoints s.
Proof.
  intros Hs Hp. unfold calculateTotalPoints. rewrite Hs. clear Hs.
  generalize (Num 0). induction (selectedProducts s) as [|k l IH];
    intros acc; cbn; [done|].
  pose proof (Hp k) as Hk.
  destruct (products s' !! k) as [p'|], (products s !! k) as [p|];
    cbn in Hk; try done.
  all: try (injection Hk as ->); apply IH.
Qed.

Lemma calculateTotalPoints_snoc s l k p :
  selectedProducts s = l ++ [k] → products s !! k = Some p →
  calculateTotalPoints s
  = add (calculateTotalPoints (with_selectedProducts l s)) (points p).
Proof.
  intros Hs Hk. unfold calculateTotalPoints. rewrite Hs, fold_left_app. cbn.
  by rewrite Hk.
Qed.

(** X12. In a state reached from the construction, selecting an unselected
    product that fits and toggling it again leaves the selection set (with
    its order) and the catalog exactly as they were. *)
Theorem select_then_deselect
    (d : Document) (ops : list Op) (k : key) (el1 el2 : nat) (p : Product) :
  let s := run ops (initial d) in
  products s !! k = Some p →
  selected p = false →
  le (add (calculateTotalPoints s) (points p)) (availablePoints s) = true →
  let s2 := step (step s (OpToggle k el1)) (OpToggle k el2) in
  selectedProducts s2 = selectedProducts s ∧
  products s2 = products s ∧
  availablePoints s2 = availablePoints s.
Proof.
  intros s Hk Hsel Hfit s2.
  pose proof (run_consistent ops _ (initial_consistent d)) as [_ Hfl _].
  fold s in Hfl.
  assert (k ∉ selectedProducts s) as Hnotin.
  { rewrite Hfl. intros (q & Hq & Hqs). congruence. }
  subst s2. unfold step. cbn [perform].
  set (s1 := exec (toggleProductSelection k el1) s).
  destruct (toggle_spec k el1 s) as [(Ha1 & Hs1 & Hp1) _].
  fold s1 in Ha1, Hs1, Hp1. unfold toggle_selection, toggle_products in Hs1, Hp1.
  rewrite Hk, Hsel, Hfit in Hs1, Hp1.
  destruct (toggle_spec k el2 s1) as [(Ha2 & Hs2 & Hp2) _].
  unfold toggle_selection, toggle_products in Hs2, Hp2.
  rewrite Hp1, lookup_insert_eq in Hs2, Hp2. cbn [selected set_selected] in Hs2, Hp2.
  rewrite Hs2, Hp2, Ha2, Hs1, Ha1. split_and!.
  - unfold set_add. rewrite decide_False by done.
    unfold set_delete. rewrite filter_app, filter_cons_False by (by intros ?).
    rewrite filter_nil, app_nil_r. by apply set_delete_notin.
  - rewrite insert_insert_eq. apply insert_id. rewrite Hk. f_equal.
    destruct p as [i pts sel]. cbn in *. by subst sel.
  - done.
Qed.

Lemma select_then_deselect_witness :
  let s := initial docAB in
  let s2 := step (step s (OpToggle (Some "B") 1)) (OpToggle (Some "B") 0) in
  selectedProducts s2 = selectedProducts s ∧
  products s2 = products s ∧
  availablePoints s2 = availablePoints s.
Proof.
  apply (select_then_deselect docAB [] (Some "B") 1 0
           (mkProduct (Some "B") (Num 5000) false));
    vm_compute; reflexivity.
Defined.

(** ** Costs that are not numbers, and costs above the budget *)

Lemma le_true_Num a b : le a b = true → ∃ x y, a = Num x ∧ b = Num y ∧ x ≤ y.
Proof.
  destruct a as [|x], b as [|y]; cbn; try done.
  intros H%bool_decide_eq_true. by exists x, y.
Qed.

Lemma add_Num a b z : add a b = Num z → ∃ x y, a = Num x ∧ b = Num y.
Proof. destruct a as [|x], b as [|y]; cbn; try done. by exists x, y. Qed.

Lemma selected_costs_are_numbers_step s op :
  selected_costs_are_numbers s → selected_costs_are_numbers (step s op).
Proof.
  intros Hn. step_cases s op k0 el answer H.
  - destruct (toggle_spec k0 el s) as [(_ & Hs & Hp) _].
    intros k p. rewrite Hs, Hp. unfold toggle_selection, toggle_products.
    destruct (products s !! k0) as [p0|] eqn:Hk0; [|apply Hn].
    destruct (selected p0) eqn:Hsel0;
      [|destruct (le (add (calculateTotalPoints s) (points p0))
                   (availablePoints s)) eqn:Hfit; [|apply Hn]].
    + rewrite elem_of_set_delete. intros [Hin Hne].
      rewrite lookup_insert_ne by done. by apply Hn.
    + apply le_true_Num in Hfit as (x & y & Hadd & _).
      apply add_Num in Hadd as (_ & c & _ & Hc).
      rewrite elem_of_set_add. destruct (decide (k0 = k)) as [<-|Hne].
      * rewrite lookup_insert_eq. intros _ [= <-]. by exists c.
      * rewrite lookup_insert_ne by done. intros [Hin| ->]; [|done].
        by apply Hn.
  - destruct (dom_only_confirmClick answer s) as [(_ & Hs & Hp & _) _].
    intros k p. rewrite Hs, Hp. apply Hn.
  - destruct (dom_only_processExchange s) as [(_ & Hs & Hp & _) _].
    intros k p. rewrite Hs, Hp. apply Hn.
  - destruct (pendingExchanges s); [by rewrite H|].
    destruct H as (_ & Hs & _). intros k p. rewrite Hs.
    by intros ?%elem_of_nil.
Qed.

Lemma selected_costs_are_numbers_run d ops :
  selected_costs_are_numbers (run ops (initial d)).
Proof.
  induction ops as [|op ops IH] using rev_ind.
  - intros k p. change (run [] (initial d)) with (initial d).
    destruct (initial_spec d) as (_ & -> & _). by intros ?%elem_of_nil.
  - rewrite run_snoc. by apply selected_costs_are_numbers_step.
Qed.

Lemma selected_costs_are_numbers_total s :
  selected_costs_are_numbers s → ∃ t, calculateTotalPoints s = Num t.
Proof.
  unfold selected_costs_are_numbers, calculateTotalPoints.
  generalize 0. induction (selectedProducts s) as [|k l IH]; intros a Hn; cbn.
  - by exists a.
  - destruct (products s !! k) as [p|] eqn:Hk.
    + destruct (Hn k p) as [c ->]; [left|done|]. cbn.
      apply IH. intros k' p' Hin. apply Hn. by right.
    + apply IH. intros k' p' Hin. apply Hn. by right.
Qed.

(** X14. A product whose cost is NaN (the cost attribute is missing or does
    not start with a number) is never selected, in any state reached from
    the construction. *)
Theorem nan_cost_is_never_selected
    (d : Document) (ops : list Op) (k : key) (p : Product) :
  let s := run ops (initial d) in
  products s !! k = Some p →
  points p = NaN →
  (k ∉ selectedProducts s) ∧ selected p = false.
Proof.
  intros s Hk Hnan.
  pose proof (run_consistent ops _ (initial_consistent d)) as [_ Hfl _].
  fold s in Hfl.
  assert (k ∉ selectedProducts s) as Hnotin.
  { intros Hin.
    destruct (selected_costs_are_numbers_run d ops k p Hin Hk) as [z Hz].
    congruence. }
  split; [done|]. destruct (selected p) eqn:Hsel; [|done].
  destruct Hnotin. apply Hfl. by exists p.
Qed.

Lemma nan_cost_is_never_selected_witness :
  let s := run [OpToggle None 0; OpToggle (Some "A") 1] (initial docMalformed) in
  (None ∉ selectedProducts s) ∧ selected (mkProduct None NaN false) = false.
Proof.
  apply (nan_cost_is_never_selected docMalformed
           [OpToggle None 0; OpToggle (Some "A") 1] None
           (mkProduct None NaN false));
    vm_compute; reflexivity.
Defined.

Lemma zsum_nonneg (f : key → Z) l : (∀ k, 0 ≤ f k) → 0 ≤ zsum f l.
Proof.
  intros Hf. induction l as [|x l IH]; cbn; [done|]. specialize (Hf x). lia.
Qed.

Lemma zsum_member (f : key → Z) k l :
  (∀ k', 0 ≤ f k') → k ∈ l → f k ≤ zsum f l.
Proof.
  intros Hf. induction l as [|x l IH]; [by intros ?%elem_of_nil|].
  pose proof (zsum_nonneg f l Hf) as H0.
  intros [->|Hin]%elem_of_cons; cbn.
  - lia.
  - specialize (IH Hin). specialize (Hf x). lia.
Qed.

(** X15. When the costs are non-negative integers, a product that costs more
    than 7000 points is never selected, and the remaining points (7000 minus
    the total of the selection) stay between 0 and 7000, in every state
    reached from the construction. *)
Theorem selection_stays_affordable
    (d : Document) (ops : list Op) :
  nonneg_costs (products (initial d)) →
  let s := run ops (initial d) in
  (∃ r, remainingPoints s = Num r ∧ 0 ≤ r ≤ 7000) ∧
  ∀ k p c, products s !! k = Some p → points p = Num c → 7000 < c →
           (k ∉ selectedProducts s) ∧ selected p = false.
Proof.
  intros Hm s.
  pose proof (run_consistent ops _ (initial_consistent d)) as [_ Hfl _].
  pose proof (run_budgeted ops _ (initial_consistent d) (initial_budgeted d Hm))
    as (Hm' & z & Hz & Hz0 & Hle).
  fold s in Hfl, Hm', Hz, Hle.
  destruct (initial_spec d) as (Ha & _).
  pose proof (run_availablePoints ops _ _ Ha) as Ha'. fold s in Ha'.
  assert (z = 7000) as -> by congruence.
  pose proof (λ k, zcost_nonneg (products s) k Hm') as Hnn.
  clearbody s. split.
  - exists (7000 - zsum (zcost (products s)) (selectedProducts s)).
    unfold remainingPoints. rewrite calculateTotalPoints_zsum, Ha' by done.
    split; [done|].
    pose proof (zsum_nonneg _ (selectedProducts s) Hnn). lia.
  - intros k p c Hk Hc Hbig.
    assert (k ∉ selectedProducts s) as Hnotin.
    { intros Hin. pose proof (zsum_member _ k _ Hnn Hin) as Hk'.
      unfold zcost at 1 in Hk'. rewrite Hk, Hc in Hk'. lia. }
    split; [done|]. destruct (selected p) eqn:Hsel; [|done].
    destruct Hnotin. apply Hfl. by exists p.
Qed.

Lemma selection_stays_affordable_witness :
  let s := run [OpToggle (Some "A") 0; OpToggle (Some "B") 1] (initial docAB) in
  (∃ r, remainingPoints s = Num r ∧ 0 ≤ r ≤ 7000) ∧
  ∀ k p c, products s !! k = Some p → points p = Num c → 7000 < c →
           (k ∉ selectedProducts s) ∧ selected p = false.
Proof.
  apply (selection_stays_affordable docAB).
  apply (bool_decide_unpack (nonneg_costs _)). vm_compute. exact I.
Defined.

(** ** The markers of the cards *)

Lemma card_ids_alter (i : nat) v (cs : list Card) :
  data_id <$> alter (set_class_selected v) i cs = data_id <$> cs.
Proof.
  rewrite (list_fmap_alter data_id _ (λ x, x)).
  - by apply list_alter_id.
  - by apply Forall_true.
Qed.

Lemma card_ids_clear (cs : list Card) : data_id <$> (set_class_selected false <$> cs) = data_id <$> cs.
Proof. rewrite <- list_fmap_compose. by apply list_fmap_ext. Qed.

Lemma toggle_cards k el s :
  cards (document (exec (toggleProductSelection k el) s))
  = cards (document (toggle_writes k el s)).
Proof.
  assert (keeps (λ s, cards (document s))
            (updateConfirmButton >> updatePointsDisplay)) as Hkeep.
  { apply keeps_bind; [by apply keeps_updateConfirmButton|]. intros _.
    by apply keeps_updatePointsDisplay. }
  unfold toggleProductSelection, toggle_writes. rewrite exec_bind. cbn [get].
  destruct (products s !! k) as [p|]; [|done]. rewrite exec_bind.
  destruct (selected p);
    [|destruct (le (add (calculateTotalPoints s) (points p))
                 (availablePoints s))]; cbn; by rewrite Hkeep.
Qed.

Lemma timerFires_cards s :
  cards (document (exec timerFires s))
  = match pendingExchanges s with
    | O => cards (document s)
    | S _ => set_class_selected false <$> cards (document s)
    end.
Proof.
  assert (keeps (λ s, cards (document s))
            (updateConfirmButton >> updatePointsDisplay)) as Hkeep.
  { apply keeps_bind; [by apply keeps_updateConfirmButton|]. intros _.
    by apply keeps_updatePointsDisplay. }
  unfold timerFires. rewrite exec_bind. cbn [get].
  destruct (pendingExchanges s) as [|n]; [done|].
  rewrite exec_bind. cbn [write]. unfold exchangeCompletion.
  do 4 (rewrite exec_bind; cbn [write]). by rewrite Hkeep.
Qed.

Lemma markers_match_handle e s :
  NoDup (card_ids s) → markers_match s →
  card_ids (exec (handle e) s) = card_ids s ∧ markers_match (exec (handle e) s).
Proof.
  intros Hnd Hm. destruct e as [i|answer|]; cbn [handle].
  - unfold cardClick. rewrite exec_bind. cbn [get].
    destruct (cards (document s) !! i) as [c|] eqn:Hi; [|done].
    set (k := data_id c).
    set (s' := exec (toggleProductSelection k i) s).
    pose proof (toggle_cards k i s) as Hcards. fold s' in Hcards.
    destruct (toggle_spec k i s) as [(_ & _ & Hp) _]. fold s' in Hp.
    unfold toggle_writes in Hcards. unfold toggle_products in Hp.
    assert (∀ b p, products s !! k = Some p →
      cards (document s') = alter (set_class_selected b) i (cards (document s)) →
      products s' = <[k := set_selected b p]> (products s) →
      card_ids s' = card_ids s ∧ markers_match s') as Hcase.
    { intros b p Hk Hc Hp'. split.
      - unfold card_ids. by rewrite Hc, card_ids_alter.
      - intros j c'. rewrite Hc, list_lookup_alter. unfold flag. rewrite Hp'.
        case_decide as Hij.
        + subst j. rewrite Hi. intros [= <-]. cbn. fold k.
          rewrite lookup_insert_eq. cbn. split; by intros [= ->].
        + intros Hj. rewrite lookup_insert_ne; [exact (Hm j c' Hj)|].
          intros Heq. apply Hij.
          apply (NoDup_lookup (card_ids s) i j k); [done|..];
            unfold card_ids; rewrite list_lookup_fmap.
          * by rewrite Hi.
          * rewrite Hj. cbn. by rewrite Heq. }
    assert (cards (document s') = cards (document s) →
            products s' = products s →
            card_ids s' = card_ids s ∧ markers_match s') as Hsame.
    { intros Hc Hp'. split; [unfold card_ids; by rewrite Hc|].
      intros j c'. unfold flag. rewrite Hc, Hp'. exact (Hm j c'). }
    destruct (products s !! k) as [p|] eqn:Hk; [|by apply Hsame].
    destruct (selected p);
      [|destruct (le (add (calculateTotalPoints s) (points p))
                   (availablePoints s)); [|by apply Hsame]].
    + exact (Hcase false p eq_refl Hcards Hp).
    + exact (Hcase true p eq_refl Hcards Hp).
  - assert (cards (document (exec (confirmClick answer) s))
            = cards (document s)) as Hc
      by (by apply (keeps_confirmClick (λ s, cards (document s)))).
    destruct (dom_only_confirmClick answer s) as [(_ & _ & Hp & _) _].
    split; [unfold card_ids; by rewrite Hc|].
    intros j c'. unfold flag. rewrite Hc, Hp. exact (Hm j c').
  - pose proof (timerFires_cards s) as Hc.
    pose proof (timerFires_spec s) as Hp. cbn zeta in Hp.
    destruct (pendingExchanges s) as [|n]; [by rewrite Hp|].
    destruct Hp as (_ & _ & Hp). split.
    + unfold card_ids. by rewrite Hc, card_ids_clear.
    + intros j c'. unfold flag. rewrite Hc, Hp, list_lookup_fmap, lookup_fmap.
      destruct (cards (document s) !! j) as [c0|]; [|done]. intros [= <-]. cbn.
      split; [done|]. by destruct (products s !! data_id c0).
Qed.

Lemma play_snoc evs e s : play (evs ++ [e]) s = exec (handle e) (play evs s).
Proof. unfold play. by rewrite fold_left_app. Qed.

(** X16. When the cards of the document carry distinct identifiers and none is
    marked selected in the markup, then after any sequence of clicks on
    cards, clicks on the confirmation button and timers, a card carries the
    selected marker exactly when the flag of its product is set. *)
Theorem markers_follow_flags (d : Document) (evs : list Event) :
  NoDup (data_id <$> cards d) →
  Forall (λ c, class_selected c = false) (cards d) →
  markers_match (play evs (initial d)).
Proof.
  intros Hnd Hclear.
  pose proof (initial_cards d) as Hcards.
  assert (card_ids (play evs (initial d)) = card_ids (initial d) ∧
          markers_match (play evs (initial d))) as [_ H]; [|done].
  induction evs as [|e evs [IH1 IH2]] using rev_ind.
  - split; [done|]. change (play [] (initial d)) with (initial d).
    intros i c. rewrite Hcards. intros Hi.
    rewrite Forall_lookup in Hclear. rewrite (Hclear i c Hi).
    split; [done|]. unfold flag.
    destruct (products (initial d) !! data_id c) as [p|] eqn:Hp; [|done].
    destruct (initial_spec d) as (_ & _ & Hcat & _). rewrite Hcat in Hp.
    apply catalog_of_fresh in Hp as [_ Hsel]. cbn. intros [= ?]. congruence.
  - rewrite play_snoc.
    destruct (markers_match_handle e (play evs (initial d))) as [H1 H2];
      [|done|].
    + rewrite IH1. unfold card_ids. by rewrite Hcards.
    + split; [congruence|done].
Qed.

Lemma markers_follow_flags_witness :
  markers_match (play [EvCard 0; EvCard 1; EvConfirm true; EvCard 0; EvTimer]
                   (initial docAB)).
Proof.
  apply (markers_follow_flags docAB).
  - apply (bool_decide_unpack (NoDup _)). vm_compute. exact I.
  - vm_compute. by repeat constructor.
Defined.

(** The identifiers have to be distinct. With two cards for the same product,
    a click on the first selects the product and marks the first card; a
    click on the second deselects the product and leaves the first card
    marked. *)
Remark markers_with_shared_identifier :
  let s := play [EvCard 0; EvCard 1] (initial docDuplicate) in
  selectedProducts s = [] ∧
  flag (Some "A") s = Some false ∧
  class_selected <$> cards (document s) = [true; false].
Proof. vm_compute. by repeat split. Qed.

(** * Pages without negative costs

    The costs are non-negative integers or NaN. Every accepted total then
    lies between 0 and the budget. *)

Lemma zcost_no_negative m k : no_negative_costs m → 0 ≤ zcost m k.
Proof.
  intros Hm. unfold zcost. destruct (m !! k) as [p|] eqn:Hk; [|done].
  specialize (Hm k p Hk). unfold no_negative_cost in Hm.
  by destruct (points p).
Qed.

Lemma no_negative_costs_insert_flag m k p b :
  m !! k = Some p → no_negative_costs m →
  no_negative_costs (<[k := set_selected b p]> m).
Proof.
  intros Hk Hm k' p'. destruct (decide (k = k')) as [<-|Hne].
  - rewrite lookup_insert_eq. intros [= <-]. exact (Hm k p Hk).
  - rewrite lookup_insert_ne by done. apply Hm.
Qed.

Lemma no_negative_costs_clear_flags m :
  no_negative_costs m → no_negative_costs (set_selected false <$> m).
Proof.
  intros Hm k p. rewrite lookup_fmap.
  destruct (m !! k) as [q|] eqn:Hk; [|done]. intros [= <-]. exact (Hm k q Hk).
Qed.

Lemma zsum_insert_flag m k p b l :
  m !! k = Some p →
  zsum (zcost (<[k := set_selected b p]> m)) l = zsum (zcost m) l.
Proof. intros Hk. apply zsum_ext. intros k' _. by apply zcost_insert_flag. Qed.

(** When the selected products have integer costs, [calculateTotalPoints] is
    their sum. *)
Lemma calculateTotalPoints_numbers s :
  selected_costs_are_numbers s →
  calculateTotalPoints s = Num (zsum (zcost (products s)) (selectedProducts s)).
Proof.
  unfold selected_costs_are_numbers, calculateTotalPoints.
  assert (∀ l a,
    (∀ k p, k ∈ l → products s !! k = Some p → ∃ z, points p = Num z) →
    fold_left (λ total productId,
      match products s !! productId with
      | Some product => add total (points product)
      | None => total
      end) l (Num a) = Num (a + zsum (zcost (products s)) l)) as H.
  { induction l as [|k l IH]; intros a Hn; cbn; [f_equal; lia|].
    assert (∀ k' p', k' ∈ l → products s !! k' = Some p' →
                     ∃ z, points p' = Num z) as Hn'
      by (intros k' p' Hin; apply Hn; by right).
    unfold zcost at 1. destruct (products s !! k) as [p|] eqn:Hk.
    - destruct (Hn k p) as [z ->]; [left|done|]. cbn.
      rewrite IH by done. f_equal. lia.
    - rewrite IH by done. f_equal; lia. }
  intros Hn. by rewrite H.
Qed.

Lemma step_no_negative_costs s op :
  no_negative_costs (products s) → no_negative_costs (products (step s op)).
Proof.
  intros Hm. step_cases s op k el answer H.
  - destruct (toggle_spec k el s) as [(_ & _ & ->) _]. unfold toggle_products.
    destruct (products s !! k) as [p|] eqn:Hk; [|done].
    destruct (selected p);
      [|destruct (le (add (calculateTotalPoints s) (points p))
                   (availablePoints s)); [|done]];
      by apply no_negative_costs_insert_flag.
  - by destruct (dom_only_confirmClick answer s) as [(_ & _ & -> & _) _].
  - by destruct (dom_only_processExchange s) as [(_ & _ & -> & _) _].
  - destruct (pendingExchanges s); [by rewrite H|].
    destruct H as (_ & _ & ->). by apply no_negative_costs_clear_flags.
Qed.

Lemma step_fits s op :
  consistent s → no_negative_costs (products s) →
  selected_costs_are_numbers s → fits s → fits (step s op).
Proof.
  intros [Hnd Hfl _] Hm Hn (a & Ha & Ha0 & Hle). unfold fits.
  step_cases s op k el answer H.
  - destruct (toggle_spec k el s) as [(-> & -> & ->) _].
    unfold toggle_selection, toggle_products.
    destruct (products s !! k) as [p|] eqn:Hk; [|by exists a].
    destruct (selected p) eqn:Hsel.
    + exists a. split_and!; [done..|].
      rewrite zsum_insert_flag by done.
      rewrite zsum_set_delete; [|done|apply Hfl; eauto].
      pose proof (zcost_no_negative _ k Hm). lia.
    + destruct (le (add (calculateTotalPoints s) (points p))
                  (availablePoints s)) eqn:Hfit; [|by exists a].
      rewrite calculateTotalPoints_numbers, Ha in Hfit by done.
      exists a. split_and!; [done..|].
      rewrite zsum_insert_flag by done. rewrite zsum_set_add.
      * unfold zcost at 2. rewrite Hk.
        destruct (points p) as [|c]; [done|]. cbn in Hfit.
        by apply bool_decide_eq_true in Hfit.
      * rewrite Hfl. intros (q & Hq & Hqs). congruence.
  - destruct (dom_only_confirmClick answer s) as [(-> & -> & -> & _) _].
    by exists a.
  - destruct (dom_only_processExchange s) as [(-> & -> & -> & _) _].
    by exists a.
  - destruct (pendingExchanges s); [rewrite H; by exists a|].
    destruct H as (-> & -> & ->). exists a. rewrite Ha. cbn.
    split_and!; [f_equal; lia|done..].
Qed.

Lemma run_fits d ops :
  no_negative_costs (products (initial d)) →
  no_negative_costs (products (run ops (initial d))) ∧
  fits (run ops (initial d)).
Proof.
  intros Hm. induction ops as [|op ops [IH1 IH2]] using rev_ind.
  - split; [done|]. change (run [] (initial d)) with (initial d).
    destruct (initial_spec d) as (Ha & Hs & _).
    exists 7000. by rewrite Hs.
  - rewrite run_snoc. split; [by apply step_no_negative_costs|].
    apply step_fits; [|done| |done].
    + apply run_consistent, initial_consistent.
    + apply selected_costs_are_numbers_run.
Qed.

(** ** Toggling a selected product twice *)

(** With costs 7000 (A), -1000 (B) and 1000 (C): selecting B, A and C and then
    deselecting B leaves A and C selected, 8000 points for a budget of 7000.
    A is then deselected by a first toggle and rejected by the second: the
    set and the flag of A are not what they were. *)
Lemma toggle_twice_with_negative_cost :
  let s := run (toggles [(Some "B", 1%nat); (Some "A", 0%nat);
                         (Some "C", 2%nat); (Some "B", 1%nat)])
             (initial docNegative) in
  let s2 := step (step s (OpToggle (Some "A") 0)) (OpToggle (Some "A") 0) in
  (Some "A" ∈ selectedProducts s ∧ flag (Some "A") s = Some true) ∧
  calculateTotalPoints s = Num 8000 ∧
  (Some "A" ∉ selectedProducts s2) ∧
  flag (Some "A") s2 = Some false ∧
  ¬ (selectedProducts s2 ≡ₚ selectedProducts s).
Proof.
  intros s s2.
  assert (selectedProducts s = [Some "A"; Some "C"]) as Hs by (by vm_compute).
  assert (selectedProducts s2 = [Some "C"]) as Hs2 by (by vm_compute).
  rewrite Hs, Hs2. split_and!.
  - left.
  - by vm_compute.
  - by vm_compute.
  - intros [=]%list_elem_of_singleton.
  - by vm_compute.
  - by intros ?%Permutation_length.
Qed.

(** C9. In every state reached from the construction on a document without
    negative costs (each cost is a non-negative integer or NaN), two toggles
    in a row of a product that is selected leave the selection set with the
    members it had, and the catalog (so every flag) as it was. *)
Theorem toggle_twice_restores_selection
    (d : Document) (ops : list Op) (k : key) (el1 el2 : nat) (p : Product) :
  no_negative_costs (products (initial d)) →
  let s := run ops (initial d) in
  products s !! k = Some p →
  selected p = true →
  let s2 := step (step s (OpToggle k el1)) (OpToggle k el2) in
  selectedProducts s2 ≡ₚ selectedProducts s ∧
  products s2 = products s ∧
  flag k s2 = Some true.
Proof.
  intros Hm s Hk Hsel.
  pose proof (run_consistent ops _ (initial_consistent d)) as Hc.
  pose proof (selected_costs_are_numbers_run d ops) as Hn.
  destruct (run_fits d ops Hm) as [Hm' (a & Ha & Ha0 & Hle)].
  fold s in Hc, Hn, Hm', Ha, Hle. destruct Hc as [Hnd Hfl Hid].
  assert (k ∈ selectedProducts s) as Hin by (apply Hfl; eauto).
  destruct (Hn k p Hin Hk) as [c Hc].
  pose proof (selected_costs_are_numbers_step s (OpToggle k el1) Hn) as Hn1.
  unfold step in *. cbn [perform] in *.
  set (s1 := exec (toggleProductSelection k el1) s) in *.
  destruct (toggle_spec k el1 s) as [(Ha1 & Hs1 & Hp1) _].
  fold s1 in Ha1, Hs1, Hp1.
  unfold toggle_selection, toggle_products in Hs1, Hp1.
  rewrite Hk, Hsel in Hs1, Hp1.
  destruct (toggle_spec k el2 s1) as [(Ha2 & Hs2 & Hp2) _].
  unfold toggle_selection, toggle_products in Hs2, Hp2.
  assert (products s1 !! k = Some (set_selected false p)) as Hk1
    by (by rewrite Hp1, lookup_insert_eq).
  rewrite Hk1 in Hs2, Hp2. cbn [selected set_selected points] in Hs2, Hp2.
  assert (le (add (calculateTotalPoints s1) (points p)) (availablePoints s1)
          = true) as Hfit.
  { rewrite calculateTotalPoints_numbers, Ha1, Ha, Hc by done. cbn.
    apply bool_decide_eq_true. rewrite Hs1, Hp1.
    rewrite zsum_insert_flag, zsum_set_delete by done.
    unfold zcost at 2. rewrite Hk, Hc. lia. }
  rewrite Hfit in Hs2, Hp2.
  assert (products (exec (toggleProductSelection k el2) s1) = products s)
    as Hp2'.
  { rewrite Hp2, Hp1, insert_insert_eq, set_selected_restore by done.
    by apply insert_id. }
  split_and!.
  - rewrite Hs2, Hs1. by apply set_add_delete_Permutation.
  - done.
  - unfold flag. by rewrite Hp2', Hk, <- Hsel.
Qed.

Lemma toggle_twice_restores_selection_witness :
  let s := run [OpToggle None 0; OpToggle (Some "A") 1] (initial docMalformed) in
  let s2 := step (step s (OpToggle (Some "A") 1)) (OpToggle (Some "A") 1) in
  selectedProducts s2 ≡ₚ selectedProducts s ∧
  products s2 = products s ∧
  flag (Some "A") s2 = Some true.
Proof.
  apply (toggle_twice_restores_selection docMalformed
           [OpToggle None 0; OpToggle (Some "A") 1]
           (Some "A") 1 1 (mkProduct (Some "A") (Num 3000) true)).
  - apply (bool_decide_unpack (no_negative_costs _)). vm_compute. exact I.
  - vm_compute. reflexivity.
  - reflexivity.
Defined.

(** ** Totals on a page without negative costs *)

(** X11. On a page without negative costs, in a state reached from the
    construction, a toggle of an unselected product whose cost fits
    ([total + cost <= availablePoints]) selects it: the identifier is appended
    to the set, the flag is set, and the catalog entry of every other
    identifier is as it was; the total and the cost are integers between 0 and
    7000, the total grows by the cost and the remaining points shrink by
    it. *)
Theorem accepted_selection
    (d : Document) (ops : list Op) (k : key) (element : nat) (p : Product) :
  no_negative_costs (products (initial d)) →
  let s := run ops (initial d) in
  products s !! k = Some p →
  selected p = false →
  le (add (calculateTotalPoints s) (points p)) (availablePoints s) = true →
  let s' := step s (OpToggle k element) in
  selectedProducts s' = selectedProducts s ++ [k] ∧
  products s' !! k = Some (set_selected true p) ∧
  (∀ k', k' ≠ k → products s' !! k' = products s !! k') ∧
  ∃ t c, calculateTotalPoints s = Num t ∧ points p = Num c ∧
         0 ≤ t ∧ 0 ≤ c ∧ t + c ≤ 7000 ∧
         calculateTotalPoints s' = Num (t + c) ∧
         remainingPoints s = Num (7000 - t) ∧
         remainingPoints s' = Num (7000 - t - c).
Proof.
  intros Hm s Hk Hsel Hfit s'.
  pose proof (run_consistent ops _ (initial_consistent d)) as [_ Hfl _].
  pose proof (selected_costs_are_numbers_run d ops) as Hn.
  destruct (run_fits d ops Hm) as [Hm' _].
  destruct (initial_spec d) as (Ha0 & _).
  pose proof (run_availablePoints ops _ _ Ha0) as Ha.
  fold s in Hfl, Hn, Hm', Ha.
  assert (k ∉ selectedProducts s) as Hnotin.
  { rewrite Hfl. intros (q & Hq & Hqs). congruence. }
  destruct (toggle_spec k element s) as [(Ha' & Hs & Hp) _].
  change (exec (toggleProductSelection k element) s) with s' in Ha', Hs, Hp.
  unfold toggle_selection, toggle_products in Hs, Hp.
  rewrite Hk, Hsel, Hfit in Hs, Hp.
  unfold set_add in Hs. rewrite decide_False in Hs by done.
  assert (products s' !! k = Some (set_selected true p)) as Hk'
    by (by rewrite Hp, lookup_insert_eq).
  assert (calculateTotalPoints s' = add (calculateTotalPoints s) (points p))
    as Ht.
  { rewrite (calculateTotalPoints_snoc s' _ k _ Hs Hk'). cbn [points set_selected].
    f_equal. apply calculateTotalPoints_ext; [done|]. intros k'. cbn.
    rewrite Hp. destruct (decide (k = k')) as [<-|Hne].
    - by rewrite lookup_insert_eq, Hk.
    - by rewrite lookup_insert_ne. }
  split_and!; [done|done| |].
  - intros k' Hne. by rewrite Hp, lookup_insert_ne.
  - pose proof (calculateTotalPoints_numbers s Hn) as Htot.
    set (t := zsum (zcost (products s)) (selectedProducts s)) in *.
    assert (0 ≤ t) as Ht0
      by (apply zsum_nonneg; intros k'; by apply zcost_no_negative).
    pose proof (Hm' k p Hk) as Hp0. unfold no_negative_cost in Hp0.
    rewrite Htot, Ha in Hfit. unfold remainingPoints.
    rewrite Ht, Ha', Htot, Ha.
    destruct (points p) as [|c]; [done|]. cbn in Hfit |- *.
    apply bool_decide_eq_true in Hfit.
    exists t, c. split_and!; try done. f_equal. lia.
Qed.

Lemma accepted_selection_witness :
  let s := initial docMalformed in
  let p := mkProduct (Some "A") (Num 3000) false in
  let s' := step s (OpToggle (Some "A") 1) in
  selectedProducts s' = selectedProducts s ++ [Some "A"] ∧
  products s' !! Some "A" = Some (set_selected true p) ∧
  (∀ k', k' ≠ Some "A" → products s' !! k' = products s !! k') ∧
  ∃ t c, calculateTotalPoints s = Num t ∧ points p = Num c ∧
         0 ≤ t ∧ 0 ≤ c ∧ t + c ≤ 7000 ∧
         calculateTotalPoints s' = Num (t + c) ∧
         remainingPoints s = Num (7000 - t) ∧
         remainingPoints s' = Num (7000 - t - c).
Proof.
  apply (accepted_selection docMalformed [] (Some "A") 1
           (mkProduct (Some "A") (Num 3000) false)).
  - apply (bool_decide_unpack (no_negative_costs _)). vm_compute. exact I.
  - vm_compute. reflexivity.
  - reflexivity.
  - vm_compute. reflexivity.
Defined.

(** X13. On a page without negative costs (the costs may be NaN), in every
    state reached from the construction the total of the selection is an
    integer between 0 and 7000, and the remaining points and the total add up
    to the budget of 7000. *)
Theorem total_and_remaining_add_up (d : Document) (ops : list Op) :
  no_negative_costs (products (initial d)) →
  let s := run ops (initial d) in
  ∃ t r, calculateTotalPoints s = Num t ∧ remainingPoints s = Num r ∧
         0 ≤ t ≤ 7000 ∧ r + t = 7000.
Proof.
  intros Hm s.
  pose proof (selected_costs_are_numbers_run d ops) as Hn.
  destruct (run_fits d ops Hm) as [Hm' (a & Ha & _ & Hle)].
  destruct (initial_spec d) as (Ha0 & _).
  pose proof (run_availablePoints ops _ _ Ha0) as Ha'.
  fold s in Hn, Hm', Ha, Hle, Ha'.
  assert (a = 7000) as -> by congruence.
  pose proof (calculateTotalPoints_numbers s Hn) as Htot.
  set (t := zsum (zcost (products s)) (selectedProducts s)) in *.
  assert (0 ≤ t) as Ht0
    by (apply zsum_nonneg; intros k'; by apply zcost_no_negative).
  exists t, (7000 - t). unfold remainingPoints. rewrite Htot, Ha.
  split_and!; [done|done|lia|lia|lia].
Qed.

Lemma total_and_remaining_add_up_witness :
  let s := run [OpToggle None 0; OpToggle (Some "A") 1] (initial docMalformed) in
  ∃ t r, calculateTotalPoints s = Num t ∧ remainingPoints s = Num r ∧
         0 ≤ t ≤ 7000 ∧ r + t = 7000.
Proof.
  apply (total_and_remaining_add_up docMalformed).
  apply (bool_decide_unpack (no_negative_costs _)). vm_compute. exact I.
Defined.
